(** * Kisan-DePIN: the compliance statement and its proof lifecycle

    Embedded here, each from its source:
    - the circuit [VerifyCompliance] of zk-proofs/verify_compliance.circom,
      with the two circomlib templates it instantiates, [LessThan] of
      comparators.circom and the [Num2Bits] of bitify.circom inside it;
      [Poseidon(5)] is kept as a function parameter;
    - the mock prover zk-proofs/generate_mock_proof.js that
      setup_and_prove.sh runs when circom is missing; Node's SHA-256 and
      random bytes are parameters;
    - [handleSubmit] of the CapturePreview component with the constants of
      lib/mock-data.ts;
    - the script zk-proofs/setup_and_prove.sh, as the commands it runs
      under [set -e] and the banners it prints;
    - the page of the frontend: [getCurrentPosition], [handleCapture], what
      CapturePreview renders, also of an answer that is not of the
      [ComplianceResult] shape, the state [Home] keeps, and the animated
      counter of GreenBalance;
    - the replay ledger, which the repository only describes (the
      ProofRecord account of DEPLOYMENT.md) and which is therefore modelled
      from the specification.

    The Groth16 setup, prover and verifier are snarkjs commands and are not
    modelled: for the real backend, "prove" is judged on witness generation
    and on satisfiability of the constraint system. *)

From Stdlib Require Import ZArith Lia List String Ascii QArith Znumtheory Zpow_facts Zmod.
From stdpp Require Import base decidable option list gmap strings.

Local Open Scope Z_scope.

(** ** The scalar field of bn128

    Signals of a circom circuit are elements of the prime field selected at
    compile time; [setup_and_prove.sh] compiles with the default prime and
    runs the ceremony on [bn128].  A field element is a [Z] in [0, p). *)
Module F.

Definition p : Z :=
  21888242871839275222246405745257275088548364400416034343698204186575808495617.

(** How the witness calculator reads a (possibly negative) integer of
    input.json into a signal. *)
Definition of_Z (x : Z) : Z := x mod p.

Definition add (a b : Z) : Z := (a + b) mod p.
Definition sub (a b : Z) : Z := (a - b) mod p.
Definition mul (a b : Z) : Z := (a * b) mod p.

Definition elem (x : Z) : Prop := 0 <= x < p.

(** The signed reading of a field element, as used for coordinates:
    values above p/2 stand for negative numbers. *)
Definition to_signed (x : Z) : Z := if x <=? p / 2 then x else x - p.

End F.

(** ** circomlib templates used by the circuit *)
Module Circomlib.

(** [Num2Bits(n)]:
<<
    for (var i = 0; i<n; i++) {
        out[i] <-- (in >> i) & 1;
        out[i] * (out[i] -1 ) === 0;
        lc1 += out[i] * e2;
        e2 = e2+e2;
    }
    lc1 === in;
>> *)
Definition Num2Bits_out (n : nat) (inp : Z) : list Z :=
  map (fun i => Z.land (Z.shiftr inp (Z.of_nat i)) 1) (seq 0 n).

Fixpoint Num2Bits_lc1 (out : list Z) (lc1 e2 : Z) : Z :=
  match out with
  | [] => lc1
  | b :: rest => Num2Bits_lc1 rest (F.add lc1 (F.mul b e2)) (F.add e2 e2)
  end.

Definition is_bit (b : Z) : bool := F.mul b (F.sub b 1) =? 0.

Definition Num2Bits_constraints (n : nat) (inp : Z) (out : list Z) : bool :=
  (length out =? n)%nat && forallb is_bit out && (Num2Bits_lc1 out 0 1 =? inp).

(** [LessThan(n)]:
<<
    component n2b = Num2Bits(n+1);
    n2b.in <== in[0]+ (1<<n) - in[1];
    out <== 1-n2b.out[n];
>> *)
Record LessThanSignals := {
  lt_in0 : Z;
  lt_in1 : Z;
  n2b_in : Z;
  n2b_out : list Z;
  lt_out : Z
}.

Definition LessThan_n2b_in (n : nat) (in0 in1 : Z) : Z :=
  F.sub (F.add in0 (Z.shiftl 1 (Z.of_nat n))) in1.

Definition LessThan_out (n : nat) (bits : list Z) : Z :=
  F.sub 1 (nth n bits 0).

Definition LessThan_constraints (n : nat) (s : LessThanSignals) : bool :=
  (n2b_in s =? LessThan_n2b_in n (lt_in0 s) (lt_in1 s))
  && Num2Bits_constraints (S n) (n2b_in s) (n2b_out s)
  && (lt_out s =? LessThan_out n (n2b_out s)).

(** The signals the witness calculator computes for the component. *)
Definition LessThan_witness (n : nat) (in0 in1 : Z) : LessThanSignals :=
  let x := LessThan_n2b_in n in0 in1 in
  let bits := Num2Bits_out (S n) x in
  {| lt_in0 := in0; lt_in1 := in1; n2b_in := x; n2b_out := bits;
     lt_out := LessThan_out n bits |}.

(** The integer a little-endian list of digits stands for. *)
Fixpoint bits_value (out : list Z) : Z :=
  match out with
  | [] => 0
  | b :: rest => b + 2 * bits_value rest
  end.

End Circomlib.

(** ** Results and errors of proof generation *)

(** Which [===] of the circuit the witness calculator found violated. *)
Inductive Violation :=
| StatusCheck        (* statusCheck === 0 *)
| LatCheckBits       (* lc1 === in, inside latCheck.n2b *)
| LatCheckOut        (* latCheck.out === 1 *)
| LngCheckBits       (* lc1 === in, inside lngCheck.n2b *)
| LngCheckOut.       (* lngCheck.out === 1 *)

Inductive ProveError :=
| ConstraintViolation (v : Violation).

Inductive result (A : Type) :=
| Ok (a : A)
| Err (e : ProveError).
Arguments Ok {A} a.
Arguments Err {A} e.

Definition bind {A B} (c : result A) (k : A -> result B) : result B :=
  match c with
  | Ok a => k a
  | Err e => Err e
  end.

Definition enforce (b : bool) (v : Violation) : result unit :=
  if b then Ok tt else Err (ConstraintViolation v).

Declare Scope result_scope.
Delimit Scope result_scope with result.
Notation "'check' b 'else' v 'in' k" := (bind (enforce b v) (fun _ => k))
  (at level 10, b at level 100, v at level 100, k at level 200) : result_scope.

(** ** The statement circuit [VerifyCompliance] *)
Module Circuit.
Import Circomlib.

(** The six input signals, as field elements. *)
Record Inputs := {
  complianceStatusHash : Z;
  gpsLatitude : Z;
  gpsLongitude : Z;
  farmerWalletHash : Z;
  nonce : Z;
  expectedComplianceHash : Z
}.

(** input.json as integers; the calculator reduces each modulo [p]. *)
Definition read_inputs (raw : Inputs) : Inputs :=
  {| complianceStatusHash := F.of_Z (complianceStatusHash raw);
     gpsLatitude := F.of_Z (gpsLatitude raw);
     gpsLongitude := F.of_Z (gpsLongitude raw);
     farmerWalletHash := F.of_Z (farmerWalletHash raw);
     nonce := F.of_Z (nonce raw);
     expectedComplianceHash := F.of_Z (expectedComplianceHash raw) |}.

(** A full assignment of the circuit's signals. *)
Record Signals := {
  inputs : Inputs;
  statusCheck : Z;
  shiftedLat : Z;
  shiftedLng : Z;
  latCheck : LessThanSignals;
  lngCheck : LessThanSignals;
  hasher_out : Z;
  complianceCommitment : Z
}.

(** [component main {public [expectedComplianceHash]}]: the declared
    signals of the main component and their visibility. *)
Inductive SignalName :=
| s_complianceStatusHash | s_gpsLatitude | s_gpsLongitude
| s_farmerWalletHash | s_nonce | s_expectedComplianceHash
| s_complianceCommitment.

Definition input_signals : list SignalName :=
  [s_complianceStatusHash; s_gpsLatitude; s_gpsLongitude;
   s_farmerWalletHash; s_nonce; s_expectedComplianceHash].
Definition output_signals : list SignalName := [s_complianceCommitment].
Definition public_list : list SignalName := [s_expectedComplianceHash].

Definition SignalName_eqb (a b : SignalName) : bool :=
  match a, b with
  | s_complianceStatusHash, s_complianceStatusHash
  | s_gpsLatitude, s_gpsLatitude
  | s_gpsLongitude, s_gpsLongitude
  | s_farmerWalletHash, s_farmerWalletHash
  | s_nonce, s_nonce
  | s_expectedComplianceHash, s_expectedComplianceHash
  | s_complianceCommitment, s_complianceCommitment => true
  | _, _ => false
  end.

(** circom's rule: the public signals are the outputs of main followed by
    the inputs listed in [public]. *)
Definition public_signals : list SignalName :=
  output_signals
  ++ List.filter (fun s => existsb (SignalName_eqb s) public_list) input_signals.

Definition private_signals : list SignalName :=
  List.filter (fun s => negb (existsb (SignalName_eqb s) public_list)) input_signals.

Definition signal_value (w : Signals) (s : SignalName) : Z :=
  match s with
  | s_complianceStatusHash => complianceStatusHash (inputs w)
  | s_gpsLatitude => gpsLatitude (inputs w)
  | s_gpsLongitude => gpsLongitude (inputs w)
  | s_farmerWalletHash => farmerWalletHash (inputs w)
  | s_nonce => nonce (inputs w)
  | s_expectedComplianceHash => expectedComplianceHash (inputs w)
  | s_complianceCommitment => complianceCommitment w
  end.

(** What snarkjs writes to public.json. *)
Definition publicSignals (w : Signals) : list Z :=
  map (signal_value w) public_signals.

Section WithPoseidon.

(** [Poseidon(5)] of circomlib, as the function from its five inputs to
    its output that the template's constraints determine. *)
Variable Poseidon : list Z -> Z.

Definition hasher_inputs (i : Inputs) : list Z :=
  [complianceStatusHash i; gpsLatitude i; gpsLongitude i;
   farmerWalletHash i; nonce i].

(** Every constraint of the template, over a full assignment. *)
Definition constraints (w : Signals) : bool :=
  let i := inputs w in
  (* Step 1 *)
  (statusCheck w =? F.sub (complianceStatusHash i) (expectedComplianceHash i))
  && (statusCheck w =? 0)
  (* Step 2 *)
  && (shiftedLat w =? F.add (gpsLatitude i) 900000)
  && (shiftedLng w =? F.add (gpsLongitude i) 1800000)
  && (lt_in0 (latCheck w) =? shiftedLat w)
  && (lt_in1 (latCheck w) =? 1800001)
  && LessThan_constraints 21 (latCheck w)
  && (lt_out (latCheck w) =? 1)
  && (lt_in0 (lngCheck w) =? shiftedLng w)
  && (lt_in1 (lngCheck w) =? 3600001)
  && LessThan_constraints 22 (lngCheck w)
  && (lt_out (lngCheck w) =? 1)
  (* Step 3 *)
  && (hasher_out w =? Poseidon (hasher_inputs i))
  && (complianceCommitment w =? hasher_out w).

(** The signal values the calculator computes, in program order. *)
Definition compute (i : Inputs) : Signals :=
  let sLat := F.add (gpsLatitude i) 900000 in
  let sLng := F.add (gpsLongitude i) 1800000 in
  let h := Poseidon (hasher_inputs i) in
  {| inputs := i;
     statusCheck := F.sub (complianceStatusHash i) (expectedComplianceHash i);
     shiftedLat := sLat;
     shiftedLng := sLng;
     latCheck := LessThan_witness 21 sLat 1800001;
     lngCheck := LessThan_witness 22 sLng 3600001;
     hasher_out := h;
     complianceCommitment := h |}.

Local Open Scope result_scope.

(** Witness generation: compute the signals and stop at the first
    [===] that does not hold. *)
Definition generate_witness (raw : Inputs) : result Signals :=
  let w := compute (read_inputs raw) in
  check (statusCheck w =? 0) else StatusCheck in
  check Num2Bits_constraints 22 (n2b_in (latCheck w)) (n2b_out (latCheck w))
    else LatCheckBits in
  check (lt_out (latCheck w) =? 1) else LatCheckOut in
  check Num2Bits_constraints 23 (n2b_in (lngCheck w)) (n2b_out (lngCheck w))
    else LngCheckBits in
  check (lt_out (lngCheck w) =? 1) else LngCheckOut in
  Ok w.

(** The circuit is satisfiable on given inputs when some assignment of
    the remaining signals meets every constraint. *)
Definition satisfiable (i : Inputs) : Prop :=
  exists w, inputs w = i /\ constraints w = true.

End WithPoseidon.

(** The quantity each comparator decomposes into bits. *)
Definition lat_n2b_in (lat : Z) : Z :=
  LessThan_n2b_in 21 (F.add lat 900000) 1800001.
Definition lng_n2b_in (lng : Z) : Z :=
  LessThan_n2b_in 22 (F.add lng 1800000) 3600001.

(** The three gates of the circuit, on field-valued inputs. *)
Definition status_ok (i : Inputs) : bool :=
  complianceStatusHash i =? expectedComplianceHash i.
Definition lat_ok (i : Inputs) : bool := lat_n2b_in (gpsLatitude i) <? 2 ^ 21.
Definition lng_ok (i : Inputs) : bool := lng_n2b_in (gpsLongitude i) <? 2 ^ 22.
Definition accepted (i : Inputs) : bool := status_ok i && lat_ok i && lng_ok i.

(** The coordinate ranges the circuit's comments and the specification
    give: latitude in [-900000, 900000], longitude in [-1800000, 1800000],
    in the signed reading of the field element. *)
Definition lat_in_range (lat : Z) : bool :=
  (-900000 <=? F.to_signed lat) && (F.to_signed lat <=? 900000).
Definition lng_in_range (lng : Z) : bool :=
  (-1800000 <=? F.to_signed lng) && (F.to_signed lng <=? 1800000).

End Circuit.

(** ** The mock prover [generate_mock_proof.js]

    The script the pipeline falls back to when circom is not installed.
    Node's [crypto] module is outside the repository: its SHA-256 digest and
    its random bytes are parameters of the model. *)
Module Mock.

(** input.json, whose six fields the script reads as strings
    ([substring] is called on the hashes, the rest is interpolated). *)
Record Input := {
  complianceStatusHash : string;
  gpsLatitude : string;
  gpsLongitude : string;
  farmerWalletHash : string;
  nonce : string;
  expectedComplianceHash : string
}.

Record Groth16Proof := {
  pi_a : list string;
  pi_b : list (list string);
  pi_c : list string;
  protocol : string;
  curve : string
}.

Record VerificationKey := {
  vk_protocol : string;
  vk_curve : string;
  nPublic : Z;
  vk_alpha_1 : list string;
  vk_beta_2 : list (list string);
  vk_gamma_2 : list (list string);
  vk_delta_2 : list (list string);
  IC : list (list string)
}.

(** The three artifacts written under build/, before [JSON.stringify]. *)
Inductive File :=
| ProofJson (proof : Groth16Proof)
| PublicJson (signals : list string)
| VerificationKeyJson (vk : VerificationKey).

(** [Array.prototype.join]. *)
Fixpoint join (sep : string) (l : list string) : string :=
  match l with
  | [] => EmptyString
  | [x] => x
  | x :: rest => String.append x (String.append sep (join sep rest))
  end.

(** Computations that draw from the random source: the state is the number
    of draws made so far. *)
Definition Rand (A : Type) : Type := nat -> A * nat.

Definition rret {A} (a : A) : Rand A := fun n => (a, n).

Definition rbind {A B} (c : Rand A) (k : A -> Rand B) : Rand B :=
  fun n => let (a, n') := c n in k a n'.

Declare Scope rand_scope.
Delimit Scope rand_scope with rand.
Notation "'let*' x ':=' c 'in' k" := (rbind c (fun x => k))
  (at level 10, x name, c at level 100, k at level 200) : rand_scope.

(** The variables in scope when the script reaches its verification step. *)
Record Env := {
  input : Input;
  commitmentInput : string;
  commitment : string;
  mockProof : Groth16Proof;
  publicSignals : list string;
  verificationKey : VerificationKey
}.

Inductive Outcome :=
| Exited (code : Z) (e : ProveError)      (* console.error; process.exit(1) *)
| Completed (env : Env) (verified : bool).

Inductive Verdict := VALID | INVALID.

Section Script.

(** [crypto.createHash("sha256").update(s).digest("hex")]. *)
Variable sha256 : string -> string.

(** The result of the k-th call of [crypto.randomBytes(32).toString("hex")]. *)
Variable randomBytes : nat -> string.

Local Open Scope rand_scope.

Definition randomHex : Rand string := fun n => (randomBytes n, S n).

(** [[r, r, "1"]] *)
Definition pointG1 : Rand (list string) :=
  let* x := randomHex in
  let* y := randomHex in
  rret [x; y; "1"%string].

(** [[[r, r], [r, r], ["1", "0"]]] *)
Definition pointG2 : Rand (list (list string)) :=
  let* x0 := randomHex in
  let* x1 := randomHex in
  let* y0 := randomHex in
  let* y1 := randomHex in
  rret [[x0; x1]; [y0; y1]; ["1"%string; "0"%string]].

(** Step 3: the mock Groth16 proof. *)
Definition gen_mockProof : Rand Groth16Proof :=
  let* a := pointG1 in
  let* b := pointG2 in
  let* c := pointG1 in
  rret {| pi_a := a; pi_b := b; pi_c := c;
          protocol := "groth16"; curve := "bn128" |}.

(** The mock verification key. *)
Definition gen_verificationKey : Rand VerificationKey :=
  let* alpha := pointG1 in
  let* beta := pointG2 in
  let* gamma := pointG2 in
  let* delta := pointG2 in
  let* ic0 := pointG1 in
  let* ic1 := pointG1 in
  let* ic2 := pointG1 in
  rret {| vk_protocol := "groth16"; vk_curve := "bn128"; nPublic := 2;
          vk_alpha_1 := alpha; vk_beta_2 := beta; vk_gamma_2 := gamma;
          vk_delta_2 := delta; IC := [ic0; ic1; ic2] |}.

(** Step 1: [input.complianceStatusHash === input.expectedComplianceHash]. *)
Definition statusMatch (i : Input) : bool :=
  String.eqb (complianceStatusHash i) (expectedComplianceHash i).

(** Step 2: the string that is hashed into the commitment. *)
Definition make_commitmentInput (i : Input) : string :=
  join "|" [complianceStatusHash i; gpsLatitude i; gpsLongitude i;
            farmerWalletHash i; nonce i].

(** Step 4: [recomputedCommitment === commitment]. *)
Definition verify (e : Env) : bool :=
  String.eqb (sha256 (commitmentInput e)) (commitment e).

(** The whole script, from input.json and the files present to its outcome
    and the files it leaves. *)
Definition generate_mock_proof (i : Input) (fs : gmap string File)
  : Outcome * gmap string File :=
  if negb (statusMatch i) then
    (Exited 1 (ConstraintViolation StatusCheck), fs)
  else
    let ci := make_commitmentInput i in
    let c := sha256 ci in
    let (proof, k) := gen_mockProof 0%nat in
    let signals := [c; expectedComplianceHash i] in
    let fs := <["build/proof.json"%string := ProofJson proof]> fs in
    let fs := <["build/public.json"%string := PublicJson signals]> fs in
    let (vk, _) := gen_verificationKey k in
    let fs := <["build/verification_key.json"%string := VerificationKeyJson vk]> fs in
    let env := {| input := i; commitmentInput := ci; commitment := c;
                  mockProof := proof; publicSignals := signals;
                  verificationKey := vk |} in
    (Completed env (verify env), fs).

(** The environment the script has built when it reaches step 4. *)
Definition script_env (i : Input) : Env :=
  let ci := make_commitmentInput i in
  let c := sha256 ci in
  let (proof, k) := gen_mockProof 0%nat in
  let (vk, _) := gen_verificationKey k in
  {| input := i; commitmentInput := ci; commitment := c;
     mockProof := proof; publicSignals := [c; expectedComplianceHash i];
     verificationKey := vk |}.

End Script.

(** The verification result the script prints, when it gets that far. *)
Definition reported (o : Outcome) : option Verdict :=
  match o with
  | Exited _ _ => None
  | Completed _ verified => Some (if verified then VALID else INVALID)
  end.

(** Replacing one variable of the environment, to ask what the
    verification step depends on. *)
Definition with_verificationKey (vk : VerificationKey) (e : Env) : Env :=
  {| input := input e; commitmentInput := commitmentInput e;
     commitment := commitment e; mockProof := mockProof e;
     publicSignals := publicSignals e; verificationKey := vk |}.

Definition with_mockProof (proof : Groth16Proof) (e : Env) : Env :=
  {| input := input e; commitmentInput := commitmentInput e;
     commitment := commitment e; mockProof := proof;
     publicSignals := publicSignals e; verificationKey := verificationKey e |}.

End Mock.

(** ** The replay ledger *)
Module Ledger.

Inductive CommitmentState := Unseen | Redeemed.

Inductive LedgerError := AlreadyRedeemed.

Inductive RedeemResult :=
| Ok
| Error (e : LedgerError).

Section Ledger.

(** A commitment: a field element for the circuit, a hex string for the
    mock; anything that can key a record. *)
Context `{Countable Commitment}.

(** Modelled from the spec: the on-chain program that creates the
    ProofRecord account (seeds [b"proof", commitment]) in [verify_and_mint]
    is not among the sources; DEPLOYMENT.md only names the account and its
    purpose.  Following the specification, the ledger is the set of
    commitments that have a ReplayRecord (the record stores nothing beyond
    its existence), and [redeem] is insert-if-absent. *)
Definition redeem (c : Commitment) (l : gset Commitment)
  : RedeemResult * gset Commitment :=
  if decide (c ∈ l) then (Error AlreadyRedeemed, l)
  else (Ok, {[c]} ∪ l).

(** Modelled from the spec: the per-commitment state the ledger encodes
    (a record exists, or not); the program keeping the records is not among
    the sources. *)
Definition state_of (l : gset Commitment) (c : Commitment) : CommitmentState :=
  if decide (c ∈ l) then Redeemed else Unseen.

(** Modelled from the spec: a sequence of redemption attempts issued one
    after the other on the ledger above. *)
Fixpoint redeem_all (cs : list Commitment) (l : gset Commitment)
  : list RedeemResult * gset Commitment :=
  match cs with
  | [] => ([], l)
  | c :: rest =>
      let (r, l') := redeem c l in
      let (rs, l'') := redeem_all rest l' in
      (r :: rs, l'')
  end.

(** Modelled from the spec: the state machine per commitment,
    [Unseen -> Redeemed], with no other transition. *)
Inductive step : CommitmentState -> CommitmentState -> Prop :=
| step_redeem : step Unseen Redeemed.

End Ledger.
End Ledger.

(** ** The submission handler of the capture preview *)
Module Frontend.

Inductive ComplianceStatus := COMPLIANT | VIOLATION | PENDING.

Record Details := {
  burnt_soil_percentage : Q;
  tilled_soil_percentage : Q;
  vegetation_index : Q;
  thermal_anomaly : bool
}.

(** [interface ComplianceResult]; a [null] status is [None]. *)
Record ComplianceResult := {
  status : option ComplianceStatus;
  confidence : Q;
  timestamp : string;
  details : Details
}.

Definition USE_MOCK : bool := true.

(** What the call to the backend can do: [fetch] rejects (network error),
    or it resolves and [res.json()] either rejects or yields a body. *)
Inductive Backend :=
| FetchRejects
| JsonRejects
| JsonResolves (json : ComplianceResult).

(** The component state [handleSubmit] writes.  (The two-second delay of
    the mock branch and the form data sent to the backend do not affect
    it.) *)
Record State := {
  isSubmitting : bool;
  result : option ComplianceResult
}.

Definition setIsSubmitting (b : bool) (st : State) : State :=
  {| isSubmitting := b; result := result st |}.

Definition setResult (r : ComplianceResult) (st : State) : State :=
  {| isSubmitting := isSubmitting st; result := Some r |}.

Inductive Thrown := Exception.

Section Handler.

(** [new Date().toISOString()], evaluated when mock-data.ts is loaded. *)
Variable now : string.

Definition MOCK_COMPLIANCE_RESULT : ComplianceResult :=
  {| status := Some COMPLIANT;
     confidence := 0.94%Q;
     timestamp := now;
     details := {| burnt_soil_percentage := 2.1%Q;
                   tilled_soil_percentage := 89.4%Q;
                   vegetation_index := 0.72%Q;
                   thermal_anomaly := false |} |}.

(** The body of the [try] block: the state it reaches, or what it throws. *)
Definition try_body (use_mock : bool) (backend : Backend) (st : State)
  : Thrown + State :=
  if use_mock then
    inr (setResult MOCK_COMPLIANCE_RESULT st)
  else
    match backend with
    | FetchRejects => inl Exception
    | JsonRejects => inl Exception
    | JsonResolves json => inr (setResult json st)
    end.

(** [handleSubmit]: [try { ... } catch { setResult(MOCK) } finally
    { setIsSubmitting(false) }]. *)
Definition handleSubmit (use_mock : bool) (backend : Backend) (st : State) : State :=
  let st := setIsSubmitting true st in
  let st := match try_body use_mock backend st with
            | inr st' => st'
            | inl _ => setResult MOCK_COMPLIANCE_RESULT st
            end in
  setIsSubmitting false st.

End Handler.
End Frontend.

(** ** Separators in the mock commitment *)
Module MockMore.

(** The string holds no bar, the separator of [commitmentInput]. *)
Fixpoint bar_free (s : string) : bool :=
  match s with
  | EmptyString => true
  | String c rest => negb (Ascii.eqb c "|"%char) && bar_free rest
  end.

(** Whether [node generate_mock_proof.js] ends with exit status 0. *)
Definition node_ok (o : Mock.Outcome) : bool :=
  match o with
  | Mock.Exited code _ => code =? 0
  | Mock.Completed _ _ => true
  end.

End MockMore.

(** ** The pipeline script [setup_and_prove.sh]

    The script runs under [set -e]: it stops at the first command that
    fails, except where the failure is tested ([if ! command -v ...]) or
    discarded ([|| true]).  A run is modelled by the commands it executes
    and the final banners it prints; what each external command does is
    the host's business, its exit status is all the script reads. *)
Module Pipeline.

Inductive Cmd :=
| NpmInstallSnarkjs        (* npm install -g snarkjs *)
| NpmInit                  (* npm init -y 2>/dev/null || true *)
| NpmInstallCircomlib      (* npm install circomlib *)
| MkdirBuild               (* mkdir -p build *)
| CircomCompile            (* circom verify_compliance.circom --r1cs --wasm --sym *)
| R1csInfo                 (* snarkjs r1cs info *)
| PtauNew                  (* snarkjs powersoftau new bn128 12 *)
| PtauContribute           (* snarkjs powersoftau contribute *)
| PtauPreparePhase2        (* snarkjs powersoftau prepare phase2 *)
| Groth16Setup             (* snarkjs groth16 setup *)
| ZkeyContribute           (* snarkjs zkey contribute *)
| ExportVerificationKey    (* snarkjs zkey export verificationkey *)
| GenerateWitness          (* node build/.../generate_witness.js ... input.json *)
| Groth16Prove             (* snarkjs groth16 prove *)
| Groth16Verify            (* snarkjs groth16 verify *)
| ExportSolidityVerifier   (* snarkjs zkey export solidityverifier *)
| NodeGenerateMockProof.   (* node generate_mock_proof.js *)

(** The two closing banners. *)
Inductive Banner :=
| ProofVerified            (* ZK-SNARK proof verified successfully! *)
| MockProofVerified.       (* Mock ZK-SNARK proof generated and verified! *)

(** What the script finds on the machine, and whether each command it
    runs exits with status 0. *)
Record Host := {
  snarkjs_found : bool;        (* command -v snarkjs *)
  circom_found : bool;         (* command -v circom *)
  circomlib_dir : bool;        (* [ -d node_modules/circomlib ] *)
  exit_ok : Cmd -> bool
}.

Record Log := {
  ran : list Cmd;
  printed : list Banner
}.

(** A piece of script: from the log so far to the log after, and either
    completion or the command whose failure stopped the script. *)
Definition Sh : Type := Log -> option Cmd * Log.

Definition skip : Sh := fun log => (None, log).

Definition then_ (a b : Sh) : Sh :=
  fun log =>
    match a log with
    | (None, log') => b log'
    | (Some failed, log') => (Some failed, log')
    end.

Fixpoint sequence (steps : list Sh) : Sh :=
  match steps with
  | [] => skip
  | s :: rest => then_ s (sequence rest)
  end.

Definition record (c : Cmd) (log : Log) : Log :=
  {| ran := ran log ++ [c]; printed := printed log |}.

(** A command under [set -e]. *)
Definition run (h : Host) (c : Cmd) : Sh :=
  fun log => (if exit_ok h c then None else Some c, record c log).

(** [c || true]. *)
Definition run_or_true (c : Cmd) : Sh :=
  fun log => (None, record c log).

Definition echo (b : Banner) : Sh :=
  fun log => (None, {| ran := ran log; printed := printed log ++ [b] |}).

Definition when (b : bool) (s : Sh) : Sh := if b then s else skip.

Definition setup_and_prove (h : Host) : Sh :=
  let USE_MOCK := negb (circom_found h) in
  sequence
    [ (* Step 0 *)
      when (negb (snarkjs_found h)) (run h NpmInstallSnarkjs);
      when (negb (circomlib_dir h))
        (sequence [run_or_true NpmInit; run h NpmInstallCircomlib]);
      run h MkdirBuild;
      if negb USE_MOCK then
        sequence
          [ (* Step 1 *)
            run h CircomCompile; run h R1csInfo;
            (* Step 2 *)
            run h PtauNew; run h PtauContribute; run h PtauPreparePhase2;
            run h Groth16Setup; run h ZkeyContribute; run h ExportVerificationKey;
            (* Step 3 *)
            run h GenerateWitness; run h Groth16Prove;
            (* Step 4 *)
            run h Groth16Verify; echo ProofVerified;
            (* Step 5 *)
            run h ExportSolidityVerifier ]
      else
        sequence [run h NodeGenerateMockProof; echo MockProofVerified] ].

(** A run from an empty log: the failed command, if any, and the log. *)
Definition execute (h : Host) : option Cmd * Log :=
  setup_and_prove h {| ran := []; printed := [] |}.

(** The commands of the real proving path, in script order. *)
Definition proving_steps : list Cmd :=
  [CircomCompile; R1csInfo; PtauNew; PtauContribute; PtauPreparePhase2;
   Groth16Setup; ZkeyContribute; ExportVerificationKey; GenerateWitness;
   Groth16Prove; Groth16Verify; ExportSolidityVerifier].

(** The commands both paths share. *)
Definition preparation_steps : list Cmd :=
  [NpmInstallSnarkjs; NpmInit; NpmInstallCircomlib; MkdirBuild].

Definition Cmd_eqb (a b : Cmd) : bool :=
  match a, b with
  | NpmInstallSnarkjs, NpmInstallSnarkjs | NpmInit, NpmInit
  | NpmInstallCircomlib, NpmInstallCircomlib | MkdirBuild, MkdirBuild
  | CircomCompile, CircomCompile | R1csInfo, R1csInfo | PtauNew, PtauNew
  | PtauContribute, PtauContribute | PtauPreparePhase2, PtauPreparePhase2
  | Groth16Setup, Groth16Setup | ZkeyContribute, ZkeyContribute
  | ExportVerificationKey, ExportVerificationKey
  | GenerateWitness, GenerateWitness | Groth16Prove, Groth16Prove
  | Groth16Verify, Groth16Verify
  | ExportSolidityVerifier, ExportSolidityVerifier
  | NodeGenerateMockProof, NodeGenerateMockProof => true
  | _, _ => false
  end.

Definition mem (c : Cmd) (l : list Cmd) : bool := existsb (Cmd_eqb c) l.

(** Every command of the list but the last ended well, or was [npm init],
    whose status the script discards. *)
Definition all_ok (h : Host) (l : list Cmd) : bool :=
  forallb (fun c => Cmd_eqb c NpmInit || exit_ok h c) l.

(** A piece of script that respects [set -e]: started after commands that
    all ended well, it either completes after commands that all ended
    well, or stops right after a command that failed, the first to. *)
Definition stops_well (h : Host) (s : Sh) : Prop :=
  forall log,
    all_ok h (ran log) = true ->
    match s log with
    | (None, log') => all_ok h (ran log') = true
    | (Some failed, log') =>
        exit_ok h failed = false
        /\ exists before, ran log' = before ++ [failed]
                          /\ all_ok h before = true
    end.

End Pipeline.

(** ** The page: capture, preview and verdict

    [getCurrentPosition] (geolocation.ts), [handleCapture]
    (FieldCapture.tsx), what [CapturePreview] renders from its state, and
    the state [Home] keeps.  Numbers are carried, never computed with, so
    the literals of mock-data.ts are written as rationals; the strings
    built with [toFixed] are left out. *)
Module App.

Record GeoPosition := {
  latitude : Q;
  longitude : Q;
  accuracy : Q
}.

Definition MOCK_GPS : GeoPosition :=
  {| latitude := 28.6139%Q; longitude := 77.209%Q; accuracy := 12.5%Q |}.

(** What [navigator.geolocation.getCurrentPosition] ends with: the success
    callback, or the error callback (denied, unavailable, timed out). *)
Inductive Geolocation :=
| PositionFound (pos : GeoPosition)
| PositionError.

(** [getCurrentPosition]; the navigator is [None] when it has no
    ["geolocation"].  The promise is resolved on every path. *)
Definition getCurrentPosition (use_mock : bool) (navigator : option Geolocation)
  : GeoPosition :=
  if use_mock then MOCK_GPS
  else
    match navigator with
    | None => MOCK_GPS
    | Some (PositionFound pos) =>
        {| latitude := latitude pos; longitude := longitude pos;
           accuracy := accuracy pos |}
    | Some PositionError => MOCK_GPS
    end.

Record ImageFile := {
  file_name : string;
  file_size : N
}.

(** [interface CaptureData]. *)
Record CaptureData := {
  image : option ImageFile;
  imagePreview : option string;
  gps : GeoPosition;
  timestamp : string
}.

(** What the browser answers while [handleCapture] runs. *)
Record Browser := {
  navigator : option Geolocation;
  clock : string;              (* new Date().toISOString() *)
  objectURL : string           (* URL.createObjectURL(file) *)
}.

(** [handleCapture]: what it passes to [onCapture], if it gets there. *)
Definition handleCapture (use_mock : bool) (b : Browser) (files : list ImageFile)
  : option CaptureData :=
  match files with
  | [] => None                                   (* if (!file) return *)
  | file :: _ =>
      let pos := getCurrentPosition use_mock (navigator b) in
      Some {| image := Some file;
              imagePreview := Some (objectURL b);
              gps := {| latitude := latitude pos; longitude := longitude pos;
                        accuracy := accuracy pos |};
              timestamp := clock b |}
  end.

(** What [CapturePreview] shows of its state. *)
Inductive Badge := CompliantBadge | ViolationDetectedBadge.

Inductive Action :=
| SubmitButton (disabled : bool)     (* Submit for Verification / Analyzing *)
| NewCaptureButton.

Record View := {
  badge : option Badge;
  mint_note : bool;           (* ZK proof generated, eligible for 1 $GREEN *)
  action : Action
}.

(** [result.status === "COMPLIANT"] *)
Definition is_compliant (r : Frontend.ComplianceResult) : bool :=
  match Frontend.status r with
  | Some Frontend.COMPLIANT => true
  | _ => false
  end.

Definition render (st : Frontend.State) : View :=
  {| badge :=
       match Frontend.result st with
       | Some r =>
           Some (if is_compliant r then CompliantBadge
                 else ViolationDetectedBadge)
       | None => None
       end;
     mint_note :=
       match Frontend.result st with
       | Some r => is_compliant r
       | None => false
       end;
     action :=
       match Frontend.result st with
       | None => SubmitButton (Frontend.isSubmitting st)
       | Some _ => NewCaptureButton
       end |}.

(** The state of the page: [captureData] of [Home], and the state of
    [CapturePreview], which is mounted while [captureData] is set. *)
Record Page := {
  captureData : option CaptureData;
  preview : Frontend.State
}.

(** [useState(false)], [useState(null)]. *)
Definition fresh_preview : Frontend.State :=
  {| Frontend.isSubmitting := false; Frontend.result := None |}.

Definition initial_page : Page :=
  {| captureData := None; preview := fresh_preview |}.

Inductive Event :=
| FileChosen (b : Browser) (files : list ImageFile)
| SubmitClicked (backend : Frontend.Backend)
| NewCaptureClicked.

Section Page.

Variable now : string.
Variable use_mock : bool.

(** One event on the page.  A click on a button that is not shown, or is
    disabled, does nothing.  [CapturePreview] keeps its state while it
    stays mounted, and starts afresh when it is mounted again. *)
Definition step (p : Page) (e : Event) : Page :=
  match e with
  | FileChosen b files =>
      match handleCapture use_mock b files with
      | None => p
      | Some d =>
          {| captureData := Some d;          (* onCapture: setCaptureData(data) *)
             preview := match captureData p with
                        | None => fresh_preview
                        | Some _ => preview p
                        end |}
      end
  | SubmitClicked backend =>
      match captureData p, action (render (preview p)) with
      | Some _, SubmitButton false =>
          {| captureData := captureData p;
             preview := Frontend.handleSubmit now use_mock backend (preview p) |}
      | _, _ => p
      end
  | NewCaptureClicked =>
      match captureData p, action (render (preview p)) with
      | Some _, NewCaptureButton =>
          (* setResult(null); onReset() *)
          {| captureData := None; preview := fresh_preview |}
      | _, _ => p
      end
  end.

Definition run (events : list Event) : Page :=
  fold_left step events initial_page.

End Page.

(** What holds of the page when the mock switch is on. *)
Definition mocked (now : string) (p : Page) : Prop :=
  (forall d, captureData p = Some d -> gps d = MOCK_GPS)
  /\ (forall r, Frontend.result (preview p) = Some r ->
                r = Frontend.MOCK_COMPLIANCE_RESULT now).

End App.

(** ** Any answer of the backend

    [res.json()] resolves to whatever JSON value the body of the response
    holds, and [handleSubmit] stores it as it is: the type
    [ComplianceResult] is erased at run time.  Below, the values
    [JSON.parse] returns and what [CapturePreview] does with one. *)
Module Json.

(** A number is given by the value of the double it was read as.  (A
    literal too large is read as an infinity, which behaves here as any
    number other than 0.) *)
#[warnings="-register-all"]
Inductive t :=
| Null
| Bool (b : bool)
| Num (x : Q)
| Str (s : string)
| Arr (items : list t)
| Obj (fields : list (string * t)).

(** [!!v] *)
Definition truthy (v : t) : bool :=
  match v with
  | Null => false
  | Bool b => b
  | Num x => negb (Qeq_bool x 0)
  | Str s => negb (String.eqb s "")
  | Arr _ | Obj _ => true
  end.

(** The properties [CapturePreview] reads.  None of them is a property of
    a string, a number, a boolean or an array. *)
Inductive Property :=
| status | confidence | details
| burnt_soil_percentage | tilled_soil_percentage | vegetation_index
| thermal_anomaly.

Definition name (p : Property) : string :=
  match p with
  | status => "status"
  | confidence => "confidence"
  | details => "details"
  | burnt_soil_percentage => "burnt_soil_percentage"
  | tilled_soil_percentage => "tilled_soil_percentage"
  | vegetation_index => "vegetation_index"
  | thermal_anomaly => "thermal_anomaly"
  end.

(** The value of a key of a parsed object: of two members with the same
    key, [JSON.parse] keeps the later. *)
Fixpoint own (k : string) (fields : list (string * t)) : option t :=
  match fields with
  | [] => None
  | (k', v) :: rest =>
      match own k rest with
      | Some later => Some later
      | None => if String.eqb k k' then Some v else None
      end
  end.

(** [v.p] for [v] other than [null]; [None] is [undefined]. *)
Definition get (v : t) (p : Property) : option t :=
  match v with
  | Obj fields => own (name p) fields
  | _ => None
  end.

(** [v.status === "COMPLIANT"] *)
Definition is_COMPLIANT (v : t) : bool :=
  match get v status with
  | Some (Str s) => String.eqb s "COMPLIANT"
  | _ => false
  end.

(** Whether React takes the value as a child of an element: it renders
    strings and numbers, nothing for booleans and [null], the items of an
    array, and throws on an object. *)
Fixpoint renderable (v : t) : bool :=
  match v with
  | Obj _ => false
  | Arr items => forallb renderable items
  | _ => true
  end.

(** [{x}] in JSX, for [x] that may be [undefined]. *)
Definition child (x : option t) : bool :=
  match x with
  | Some v => renderable v
  | None => true
  end.

(** A typed result as the object it is. *)
Definition of_status (s : option Frontend.ComplianceStatus) : t :=
  match s with
  | Some Frontend.COMPLIANT => Str "COMPLIANT"
  | Some Frontend.VIOLATION => Str "VIOLATION"
  | Some Frontend.PENDING => Str "PENDING"
  | None => Null
  end.

Definition of_result (r : Frontend.ComplianceResult) : t :=
  Obj [("status"%string, of_status (Frontend.status r));
       ("confidence"%string, Num (Frontend.confidence r));
       ("timestamp"%string, Str (Frontend.timestamp r));
       ("details"%string,
        Obj [("burnt_soil_percentage"%string,
              Num (Frontend.burnt_soil_percentage (Frontend.details r)));
             ("tilled_soil_percentage"%string,
              Num (Frontend.tilled_soil_percentage (Frontend.details r)));
             ("vegetation_index"%string,
              Num (Frontend.vegetation_index (Frontend.details r)));
             ("thermal_anomaly"%string,
              Bool (Frontend.thermal_anomaly (Frontend.details r)))])].

End Json.

(** ** [CapturePreview] over any answer

    [handleSubmit] and the render of [CapturePreview] once more, with the
    state holding whatever value was stored.  On answers of the
    [ComplianceResult] shape they are [Frontend.handleSubmit] and
    [App.render]. *)
Module Preview.

(** What the call to the backend can do. *)
Inductive Response :=
| FetchRejects
| JsonRejects
| JsonResolves (json : Json.t).

(** [useState<ComplianceResult | null>(null)]: [null] is [Json.Null]. *)
Record State := {
  isSubmitting : bool;
  result : Json.t
}.

Definition setIsSubmitting (b : bool) (st : State) : State :=
  {| isSubmitting := b; result := result st |}.

Definition setResult (v : Json.t) (st : State) : State :=
  {| isSubmitting := isSubmitting st; result := v |}.

Section Handler.

Variable now : string.

Definition MOCK_COMPLIANCE_RESULT : Json.t :=
  Json.of_result (Frontend.MOCK_COMPLIANCE_RESULT now).

Definition try_body (use_mock : bool) (response : Response) (st : State)
  : Frontend.Thrown + State :=
  if use_mock then
    inr (setResult MOCK_COMPLIANCE_RESULT st)
  else
    match response with
    | FetchRejects => inl Frontend.Exception
    | JsonRejects => inl Frontend.Exception
    | JsonResolves json => inr (setResult json st)
    end.

Definition handleSubmit (use_mock : bool) (response : Response) (st : State)
  : State :=
  let st := setIsSubmitting true st in
  let st := match try_body use_mock response st with
            | inr st' => st'
            | inl _ => setResult MOCK_COMPLIANCE_RESULT st
            end in
  setIsSubmitting false st.

End Handler.

(** A render returns, or throws. *)
Inductive Rendered :=
| Shows (v : App.View)
| Throws.

(** The result block reads [result.details.burnt_soil_percentage] and its
    siblings: a [TypeError] when [details] is [undefined] or [null], and
    each value read becomes a child. *)
Definition details_render (v : Json.t) : bool :=
  match Json.get v Json.details with
  | None | Some Json.Null => false
  | Some d =>
      Json.child (Json.get d Json.burnt_soil_percentage)
      && Json.child (Json.get d Json.tilled_soil_percentage)
      && Json.child (Json.get d Json.vegetation_index)
  end.

(** [{result && (...)}] and [{!result ? ... : ...}]. *)
Definition render (st : State) : Rendered :=
  if Json.truthy (result st) then
    if details_render (result st) then
      Shows {| App.badge :=
                 Some (if Json.is_COMPLIANT (result st) then App.CompliantBadge
                       else App.ViolationDetectedBadge);
               App.mint_note := Json.is_COMPLIANT (result st);
               App.action := App.NewCaptureButton |}
    else Throws
  else
    Shows {| App.badge := None; App.mint_note := false;
             App.action := App.SubmitButton (isSubmitting st) |}.




End Preview.

(** ** The animated $GREEN counter of [GreenBalance]

    The third effect of the component.  The arithmetic is JavaScript's
    floating point; it is kept abstract. *)
Module Counter.

Section Numbers.

Variable number : Type.
Variable zero : number.
Variable thirty : number.                     (* steps = 30 *)
Variable is_zero : number -> bool.            (* x === 0 *)
Variable add : number -> number -> number.
Variable div : number -> number -> number.
Variable min : number -> number -> number.    (* Math.min *)
Variable round1 : number -> number.           (* parseFloat(x.toFixed(1)) *)

Record Timer := {
  current : number;
  step : nat;
  displayedGreen : number;
  running : bool               (* the interval is set and not cleared *)
}.

(** The effect, run when [greenBalance] changes; [shown] is what the
    display holds at that moment. *)
Definition start (greenBalance shown : number) : Timer :=
  if is_zero greenBalance then
    {| current := zero; step := 0; displayedGreen := zero; running := false |}
  else
    {| current := zero; step := 0; displayedGreen := shown; running := true |}.

(** One firing of the interval. *)
Definition tick (greenBalance : number) (t : Timer) : Timer :=
  if running t then
    let increment := div greenBalance thirty in
    let step' := S (step t) in
    let current' := min (add (current t) increment) greenBalance in
    if (30 <=? step')%nat then
      {| current := current'; step := step';
         displayedGreen := greenBalance; running := false |}
    else
      {| current := current'; step := step';
         displayedGreen := round1 current'; running := true |}
  else t.

Definition after (n : nat) (greenBalance shown : number) : Timer :=
  Nat.iter n (tick greenBalance) (start greenBalance shown).

End Numbers.

End Counter.

(** ** Primality certificates

    The field's modulus has to be shown prime; the checkers below are run
    on certificates (trial division for small numbers, Pocklington's
    criterion for large ones). *)
Module PrimeCheck.

(** No number in [d, d + fuel) divides [n]. *)
Fixpoint no_divisor (n d : Z) (fuel : nat) : bool :=
  match fuel with
  | O => true
  | S fuel' => if n mod d =? 0 then false else no_divisor n (d + 1) fuel'
  end.

Definition trial_prime (n : Z) : bool :=
  (1 <? n) && no_divisor n 2 (Z.to_nat (Z.sqrt n - 1)).

(** A certificate lists, for each prime [q] of the factored part of
    [N - 1], its exponent and a witness. *)
Definition cert_F (cert : list (Z * Z * Z)) : Z :=
  fold_right (fun c acc => let '(q, e, _) := c in q ^ e * acc) 1 cert.

Fixpoint check_cert (N : Z) (cert : list (Z * Z * Z)) : bool :=
  match cert with
  | [] => true
  | (q, e, a) :: rest =>
      let x := Zpow_mod a ((N - 1) / q) N in
      (0 <=? e)
      && (0 <? q)
      && ((N - 1) mod q =? 0)
      && (Zpow_mod x q N =? 1)
      && (Z.gcd (x - 1) N =? 1)
      && (Z.gcd (q ^ e) (cert_F rest) =? 1)
      && check_cert N rest
  end.

Definition pocklington_check (N : Z) (cert : list (Z * Z * Z)) : bool :=
  ((N - 1) mod cert_F cert =? 0)
  && (0 <? cert_F cert)
  && (N <? cert_F cert * cert_F cert)
  && check_cert N cert.

End PrimeCheck.

(** ** Sample inputs *)
Module Samples.

(** The scenario of the specification: New Delhi, a matching status hash. *)
Definition delhi : Circuit.Inputs :=
  {| Circuit.complianceStatusHash := 1234567;
     Circuit.gpsLatitude := 286139;
     Circuit.gpsLongitude := 772090;
     Circuit.farmerWalletHash := 7654321;
     Circuit.nonce := 42;
     Circuit.expectedComplianceHash := 1234567 |}.

Definition with_latitude (lat : Z) (i : Circuit.Inputs) : Circuit.Inputs :=
  {| Circuit.complianceStatusHash := Circuit.complianceStatusHash i;
     Circuit.gpsLatitude := lat;
     Circuit.gpsLongitude := Circuit.gpsLongitude i;
     Circuit.farmerWalletHash := Circuit.farmerWalletHash i;
     Circuit.nonce := Circuit.nonce i;
     Circuit.expectedComplianceHash := Circuit.expectedComplianceHash i |}.

Definition with_status (h : Z) (i : Circuit.Inputs) : Circuit.Inputs :=
  {| Circuit.complianceStatusHash := h;
     Circuit.gpsLatitude := Circuit.gpsLatitude i;
     Circuit.gpsLongitude := Circuit.gpsLongitude i;
     Circuit.farmerWalletHash := Circuit.farmerWalletHash i;
     Circuit.nonce := Circuit.nonce i;
     Circuit.expectedComplianceHash := Circuit.expectedComplianceHash i |}.

(** A stand-in for a hash where a concrete function is needed to run the
    model: the results below hold for every function. *)
Definition sum_hash (l : list Z) : Z := F.of_Z (fold_right Z.add 0 l).

(** The same input.json for the mock prover. *)
Definition delhi_json : Mock.Input :=
  {| Mock.complianceStatusHash := "1234567";
     Mock.gpsLatitude := "286139";
     Mock.gpsLongitude := "772090";
     Mock.farmerWalletHash := "7654321";
     Mock.nonce := "42";
     Mock.expectedComplianceHash := "1234567" |}.

(** A second accepted submission: the same field with another nonce. *)
Definition delhi_json_again : Mock.Input :=
  {| Mock.complianceStatusHash := "1234567";
     Mock.gpsLatitude := "286139";
     Mock.gpsLongitude := "772090";
     Mock.farmerWalletHash := "7654321";
     Mock.nonce := "43";
     Mock.expectedComplianceHash := "1234567" |}.

(** A submission whose status hash is not the expected one. *)
Definition violation_json : Mock.Input :=
  {| Mock.complianceStatusHash := "7777777";
     Mock.gpsLatitude := "286139";
     Mock.gpsLongitude := "772090";
     Mock.farmerWalletHash := "7654321";
     Mock.nonce := "42";
     Mock.expectedComplianceHash := "1234567" |}.

(** Two random sources that never agree, and a stand-in digest. *)
Definition zeros (k : nat) : string := "00".
Definition ones (k : nat) : string := "11".
Definition id_hash (s : string) : string := s.

End Samples.

(** ** Sample hosts for the pipeline script *)
Module Hosts.

(** A machine with everything installed on which every command succeeds. *)
Definition complete : Pipeline.Host :=
  {| Pipeline.snarkjs_found := true; Pipeline.circom_found := true;
     Pipeline.circomlib_dir := true; Pipeline.exit_ok := fun _ => true |}.

(** A fresh machine without circom, on which the mock prover is run on the
    given input. *)
Definition without_circom (i : Mock.Input) : Pipeline.Host :=
  {| Pipeline.snarkjs_found := false; Pipeline.circom_found := false;
     Pipeline.circomlib_dir := false;
     Pipeline.exit_ok := fun c =>
       match c with
       | Pipeline.NodeGenerateMockProof =>
           MockMore.node_ok
             (fst (Mock.generate_mock_proof Samples.id_hash Samples.zeros i ∅))
       | _ => true
       end |}.

(** A complete machine on which witness generation is the modelled one. *)
Definition with_input (raw : Circuit.Inputs) : Pipeline.Host :=
  {| Pipeline.snarkjs_found := true; Pipeline.circom_found := true;
     Pipeline.circomlib_dir := true;
     Pipeline.exit_ok := fun c =>
       match c with
       | Pipeline.GenerateWitness =>
           match Circuit.generate_witness Samples.sum_hash raw with
           | Ok _ => true
           | Err _ => false
           end
       | _ => true
       end |}.

End Hosts.

(** * Properties *)

(** ** The modulus is prime *)
Module Primality.
Import PrimeCheck.

Lemma no_divisor_spec n fuel : forall d,
  no_divisor n d fuel = true ->
  forall k, d <= k < d + Z.of_nat fuel -> n mod k <> 0.
Proof.
  induction fuel as [| fuel IH]; intros d H k Hk; [lia |].
  cbn [no_divisor] in H.
  destruct (Z.eqb_spec (n mod d) 0) as [| Hd]; [discriminate H |].
  destruct (Z.eq_dec k d) as [-> | Hne]; [exact Hd |].
  apply (IH (d + 1) H). lia.
Qed.

Lemma trial_prime_correct n : trial_prime n = true -> Z.prime n.
Proof.
  unfold trial_prime. intros H. apply andb_prop in H as [H1 H2].
  apply Z.ltb_lt in H1. split; [exact H1 |].
  intros k Hk [m Hm].
  pose proof (Z.sqrt_spec n ltac:(lia)) as [Hs1 Hs2].
  pose proof (Z.sqrt_nonneg n) as Hs0.
  assert (1 < m) as Hm1 by nia.
  assert (forall j, 2 <= j <= Z.sqrt n -> n mod j <> 0) as Hno.
  { intros j Hj. apply (no_divisor_spec n _ 2 H2). lia. }
  destruct (Z.le_gt_cases k (Z.sqrt n)) as [Hle | Hgt].
  - apply (Hno k); [lia |]. rewrite Hm. apply Z.mod_mul. lia.
  - assert (m <= Z.sqrt n) as Hmle by nia.
    apply (Hno m); [lia |]. rewrite Hm, Z.mul_comm. apply Z.mod_mul. lia.
Qed.

(** Exponents of a unit: closed under remainders, hence under gcd. *)
Lemma pow_mul_mod_1 r a y k :
  1 < r -> 0 <= y -> 0 <= k -> a ^ y mod r = 1 -> a ^ (y * k) mod r = 1.
Proof.
  intros Hr Hy Hk H. rewrite Z.pow_mul_r by lia.
  rewrite Zpower_mod by lia. rewrite H, Z.pow_1_l by lia.
  apply Z.mod_1_l. lia.
Qed.

Lemma pow_rem_mod_1 r a x y :
  1 < r -> 0 <= x -> 0 < y ->
  a ^ x mod r = 1 -> a ^ y mod r = 1 -> a ^ (x mod y) mod r = 1.
Proof.
  intros Hr Hx Hy Hax Hay.
  pose proof (Z.div_mod x y ltac:(lia)) as Hdm.
  pose proof (Z.mod_pos_bound x y Hy) as Hb.
  pose proof (Z.div_pos x y Hx Hy) as Hq.
  rewrite Hdm in Hax. rewrite Z.pow_add_r in Hax by nia.
  rewrite Z.mul_mod in Hax by lia.
  rewrite (pow_mul_mod_1 r a y (x / y)) in Hax by (lia || assumption).
  rewrite Z.mul_1_l, Z.mod_mod in Hax by lia. exact Hax.
Qed.

Lemma pow_gcd_mod_1 r a :
  1 < r ->
  forall y, 0 <= y -> forall x, 0 <= x ->
  a ^ x mod r = 1 -> a ^ y mod r = 1 -> a ^ Z.gcd x y mod r = 1.
Proof.
  intros Hr y Hy. pattern y. apply Z_lt_induction; [| exact Hy].
  clear y Hy. intros y IH x Hx Hax Hay.
  destruct (Z.eq_dec y 0) as [-> | Hy0].
  - rewrite Z.gcd_0_r, Z.abs_eq by lia. exact Hax.
  - assert (0 <= y) as Hy.
    { destruct (Z.lt_ge_cases y 0) as [Hneg | ]; [| lia].
      rewrite Z.pow_neg_r in Hay by lia. rewrite Z.mod_0_l in Hay by lia. lia. }
    pose proof (Z.mod_pos_bound x y ltac:(lia)) as Hb.
    rewrite (Z.gcd_comm x y), <- Z.gcd_mod by lia.
    rewrite Z.gcd_comm.
    apply IH; [lia | lia | exact Hay |].
    apply pow_rem_mod_1; (lia || assumption).
Qed.

Lemma exists_prime_divisor n : 1 < n -> exists r, Z.prime r /\ (r | n).
Proof.
  intros Hn. assert (0 <= n) as Hn0 by lia. revert Hn.
  pattern n. apply Z_lt_induction; [| exact Hn0].
  clear n Hn0. intros n IH Hn.
  destruct (prime_dec n) as [Hp | Hnp].
  - exists n. split; [apply prime_alt, Hp | apply Z.divide_refl].
  - destruct (not_prime_divide n Hn Hnp) as (k & Hk & Hkn).
    destruct (IH k ltac:(lia) ltac:(lia)) as (r & Hr & Hrk).
    exists r. split; [exact Hr | apply (Z.divide_trans _ k); assumption].
Qed.

Lemma divide_mul_coprime a b n :
  (a | n) -> (b | n) -> Z.gcd a b = 1 -> (a * b | n).
Proof.
  intros [k Hk] Hb Hg. subst n.
  assert (b | k) as [j Hj].
  { apply (Z.gauss b a k); [rewrite Z.mul_comm; exact Hb |].
    rewrite Z.gcd_comm. exact Hg. }
  exists j. subst k. ring.
Qed.

Section Pocklington.
Variable N : Z.
Hypothesis HN : 1 < N.

(** The heart of the criterion: a prime divisor [r] of [N] is 1 modulo
    every prime power [q^e] of [N - 1] that has a witness [a]. *)
Lemma prime_divisor_cong r q e a :
  Z.prime r -> (r | N) -> Z.prime q -> 0 <= e -> (q ^ e | N - 1) ->
  a ^ (N - 1) mod N = 1 ->
  Z.gcd (a ^ ((N - 1) / q) mod N - 1) N = 1 ->
  (q ^ e | r - 1).
Proof.
  intros Hr HrN Hq He Hqe Ha Hg.
  pose proof (Z.prime_ge_2 r Hr) as Hr2.
  pose proof (Z.prime_ge_2 q Hq) as Hq2.
  assert (forall x, (x mod N) mod r = x mod r) as Hmod.
  { intros x. apply Z.mod_mod_divide, HrN. }
  assert (a ^ (N - 1) mod r = 1) as Har.
  { rewrite <- Hmod, Ha. apply Z.mod_1_l. lia. }
  assert (a mod r <> 0) as Hanz.
  { intros H0. rewrite Zpower_mod, H0, Z.pow_0_l, Z.mod_0_l in Har by lia. lia. }
  pose proof (Z.fermat_nz r a Hr Hanz) as Hf.
  set (g := Z.gcd (N - 1) (r - 1)).
  assert (a ^ g mod r = 1) as Hag
    by (apply pow_gcd_mod_1; (lia || assumption)).
  assert (0 < g) as Hgpos.
  { pose proof (Z.gcd_nonneg (N - 1) (r - 1)).
    destruct (Z.eq_dec g 0) as [H0 | ]; [| unfold g in *; lia].
    apply Z.gcd_eq_0_l in H0. lia. }
  destruct (Z.gcd_divide_l (N - 1) (r - 1)) as [t Ht]. fold g in Ht.
  assert (0 < t) as Htpos by nia.
  assert (~ (q | t)) as Hqt.
  { intros [t' Ht'].
    assert ((N - 1) / q = g * t') as Hdiv.
    { rewrite Ht, Ht'. replace (t' * q * g) with (g * t' * q) by ring.
      apply Z.div_mul. lia. }
    assert (a ^ ((N - 1) / q) mod r = 1) as H1.
    { rewrite Hdiv. apply pow_mul_mod_1; (lia || nia || assumption). }
    assert (r | a ^ ((N - 1) / q) mod N - 1) as Hdv.
    { apply Z.mod_divide; [lia |].
      rewrite Zminus_mod, Hmod, H1. rewrite (Z.mod_1_l r) by lia.
      rewrite Z.sub_diag. apply Z.mod_0_l. lia. }
    pose proof (Z.gcd_greatest _ _ _ Hdv HrN) as H. rewrite Hg in H.
    apply Z.divide_1_r_nonneg in H; lia. }
  assert (q ^ e | g) as Hqg.
  { apply (Z.gauss (q ^ e) t g).
    - rewrite <- Ht. exact Hqe.
    - apply Z.coprime_pow_l; [exact He |].
      apply Z.coprime_prime_l; assumption. }
  apply (Z.divide_trans _ g); [exact Hqg | apply Z.gcd_divide_r].
Qed.

Lemma cert_divides cert r :
  Z.prime r -> (r | N) ->
  Forall (fun c => Z.prime (fst (fst c))) cert ->
  check_cert N cert = true ->
  (cert_F cert | N - 1) ->
  (cert_F cert | r - 1).
Proof.
  intros Hr HrN. induction cert as [| [[q e] a] rest IH]; intros Hp Hc HF.
  - apply Z.divide_1_l.
  - cbn [check_cert] in Hc. cbn [cert_F fold_right] in *. fold (cert_F rest) in *.
    apply andb_prop in Hc as [Hc Hrest]. apply andb_prop in Hc as [Hc Hcop].
    apply andb_prop in Hc as [Hc Hgcd]. apply andb_prop in Hc as [Hc Hx].
    apply andb_prop in Hc as [Hc Hdiv]. apply andb_prop in Hc as [He Hqpos].
    apply Z.leb_le in He. apply Z.ltb_lt in Hqpos.
    apply Z.eqb_eq in Hdiv, Hx, Hgcd, Hcop.
    rewrite !Zpow_mod_correct in Hx by lia.
    rewrite Zpow_mod_correct in Hgcd by lia.
    assert (a ^ (N - 1) mod N = 1) as Hpow.
    { rewrite <- Zpower_mod in Hx by lia.
      rewrite <- Z.pow_mul_r in Hx by (try apply Z.div_pos; lia).
      rewrite Z.mul_comm, <- Z_div_exact_full_2 in Hx by (lia || assumption).
      exact Hx. }
    inversion Hp as [| ? ? Hq Hps]; subst. cbn [fst] in Hq.
    apply divide_mul_coprime; [| | exact Hcop].
    + apply (prime_divisor_cong r q e a); try assumption.
      apply (Z.divide_trans _ (q ^ e * cert_F rest)); [| exact HF].
      apply Z.divide_mul_l, Z.divide_refl.
    + apply IH; try assumption.
      apply (Z.divide_trans _ (q ^ e * cert_F rest)); [| exact HF].
      apply Z.divide_mul_r, Z.divide_refl.
Qed.

(** Every positive divisor of [N] is then 1 modulo the factored part. *)
Lemma divisor_cong F :
  (forall r, Z.prime r -> (r | N) -> (F | r - 1)) ->
  forall d, 0 <= d -> 0 < d -> (d | N) -> (F | d - 1).
Proof.
  intros Hprime d Hd0. pattern d. apply Z_lt_induction; [| exact Hd0].
  clear d Hd0. intros d IH Hd HdN.
  destruct (Z.eq_dec d 1) as [-> | Hd1]; [apply Z.divide_0_r |].
  destruct (exists_prime_divisor d ltac:(lia)) as (r & Hr & [d' Hd']).
  pose proof (Z.prime_ge_2 r Hr) as Hr2.
  assert (0 < d' < d) as Hd'b by nia.
  assert (F | r - 1) as H1.
  { apply Hprime; [exact Hr |]. apply (Z.divide_trans _ d); [| exact HdN].
    exists d'. exact Hd'. }
  assert (F | d' - 1) as H2.
  { apply IH; [lia | lia |]. apply (Z.divide_trans _ d); [| exact HdN].
    exists r. rewrite Hd'. ring. }
  replace (d - 1) with ((r - 1) * d' + (d' - 1)) by (rewrite Hd'; ring).
  apply Z.divide_add_r; [apply Z.divide_mul_l, H1 | exact H2].
Qed.

(** Pocklington's criterion, for a checked certificate. *)
Theorem pocklington cert :
  Forall (fun c => Z.prime (fst (fst c))) cert ->
  pocklington_check N cert = true ->
  Z.prime N.
Proof.
  intros Hp Hc. unfold pocklington_check in Hc.
  apply andb_prop in Hc as [Hc Hcert]. apply andb_prop in Hc as [Hc Hsq].
  apply andb_prop in Hc as [HF HFpos].
  apply Z.eqb_eq in HF. apply Z.ltb_lt in HFpos, Hsq.
  apply Z.mod_divide in HF; [| lia].
  set (F := cert_F cert) in *.
  assert (forall d, 0 < d -> (d | N) -> (F | d - 1)) as Hdiv.
  { intros d Hd HdN. apply divisor_cong; [| lia | exact Hd | exact HdN].
    intros r Hr HrN. apply cert_divides; assumption. }
  split; [exact HN |].
  intros n Hn [m Hm].
  assert (1 < m) as Hm1 by nia.
  assert (n | N) as HnN by (exists m; exact Hm).
  assert (m | N) as HmN by (exists n; rewrite Hm; ring).
  destruct (Hdiv n ltac:(lia) HnN) as [k Hk].
  destruct (Hdiv m ltac:(lia) HmN) as [j Hj].
  assert (0 < k) as Hkpos by nia.
  assert (0 < j) as Hjpos by nia.
  assert (F <= n - 1) by nia.
  assert (F <= m - 1) by nia.
  nia.
Qed.

End Pocklington.

(** *** The certificates *)

(** The primes of a certificate: those already known are taken from the
    context, small ones are settled by trial division. *)
Ltac cert_primes :=
  repeat (apply List.Forall_cons; [cbn [fst] |]); try apply List.Forall_nil;
  first [ assumption | apply trial_prime_correct; vm_compute; reflexivity ].

Lemma prime_12048837557 : Z.prime 12048837557.
Proof.
  apply (pocklington 12048837557 eq_refl [(93001, 1, 2); (661, 1, 2)]).
  - cert_primes.
  - vm_compute. reflexivity.
Qed.

Lemma prime_5156902474397 : Z.prime 5156902474397.
Proof.
  pose proof prime_12048837557.
  apply (pocklington 5156902474397 eq_refl [(12048837557, 1, 2)]).
  - cert_primes.
  - vm_compute. reflexivity.
Qed.

Lemma prime_1670836401704629 : Z.prime 1670836401704629.
Proof.
  pose proof prime_5156902474397.
  apply (pocklington 1670836401704629 eq_refl [(5156902474397, 1, 2)]).
  - cert_primes.
  - vm_compute. reflexivity.
Qed.

Lemma prime_639533339 : Z.prime 639533339.
Proof.
  apply (pocklington 639533339 eq_refl [(1637, 1, 2); (853, 1, 2)]).
  - cert_primes.
  - vm_compute. reflexivity.
Qed.

Lemma prime_65865678001877903 : Z.prime 65865678001877903.
Proof.
  pose proof prime_639533339.
  apply (pocklington 65865678001877903 eq_refl [(639533339, 1, 2)]).
  - cert_primes.
  - vm_compute. reflexivity.
Qed.

Lemma prime_13818364434197438864469338081 :
  Z.prime 13818364434197438864469338081.
Proof.
  pose proof prime_65865678001877903.
  apply (pocklington 13818364434197438864469338081 eq_refl
           [(65865678001877903, 1, 2)]).
  - cert_primes.
  - vm_compute. reflexivity.
Qed.

(** The scalar field order of bn128 is prime:
    [p - 1 = 2^28 * 3^2 * 13 * 29 * 983 * 11003 * 237073 * 405928799
             * 1670836401704629 * 13818364434197438864469338081],
    and the product of the last two factors exceeds the square root. *)
Theorem prime_p : Z.prime F.p.
Proof.
  pose proof prime_1670836401704629.
  pose proof prime_13818364434197438864469338081.
  apply (pocklington F.p eq_refl
           [(13818364434197438864469338081, 1, 2); (1670836401704629, 1, 2)]).
  - cert_primes.
  - vm_compute. reflexivity.
Qed.

End Primality.

(** ** Field arithmetic *)
Module FFacts.

Lemma p_pos : 0 < F.p.
Proof. reflexivity. Qed.

Lemma p_gt_2_253 : 2 ^ 253 < F.p.
Proof. reflexivity. Qed.

Lemma of_Z_elem x : F.elem (F.of_Z x).
Proof. apply Z.mod_pos_bound, p_pos. Qed.

Lemma add_elem a b : F.elem (F.add a b).
Proof. apply Z.mod_pos_bound, p_pos. Qed.

Lemma sub_elem a b : F.elem (F.sub a b).
Proof. apply Z.mod_pos_bound, p_pos. Qed.

Lemma of_Z_small x : F.elem x -> F.of_Z x = x.
Proof. intros H. apply Z.mod_small, H. Qed.

(** [a - b = 0] in the field forces [a = b]. *)
Lemma sub_eq_0 a b : F.elem a -> F.elem b -> F.sub a b = 0 -> a = b.
Proof.
  unfold F.elem, F.sub. intros Ha Hb H.
  apply Z.mod_divide in H; [| pose proof p_pos; lia].
  destruct H as [k Hk]. pose proof p_pos as Hp.
  assert (k = 0) as -> by nia. lia.
Qed.

Lemma sub_diag a : F.sub a a = 0.
Proof. unfold F.sub. rewrite Z.sub_diag. reflexivity. Qed.

Lemma p_odd : F.p = 2 * (F.p / 2) + 1.
Proof. reflexivity. Qed.

Lemma half_bounds : 2 * (F.p / 2) <= F.p <= 2 * (F.p / 2) + 1.
Proof. pose proof p_odd. lia. Qed.

Lemma mod_once a : F.p <= a < 2 * F.p -> a mod F.p = a - F.p.
Proof.
  intros H. symmetry. apply (Z.mod_unique a F.p 1 (a - F.p)); lia.
Qed.

(** A shifted comparison in the field, read on signed values: for a
    field element [x], [(x + c) mod p < b] says that the signed value of
    [x] lies in [-c, b - c). *)
Lemma shifted_window x c b :
  F.elem x -> 0 <= c -> c < b -> b < F.p / 2 ->
  ((x + c) mod F.p <? b) = (- c <=? F.to_signed x) && (F.to_signed x <? b - c).
Proof.
  intros [H0 Hp] Hc Hcb Hb. unfold F.to_signed.
  pose proof half_bounds as [Hh1 Hh2].
  destruct (Z.leb_spec x (F.p / 2)) as [Hlow | Hhigh].
  - rewrite Z.mod_small by lia. lia.
  - destruct (Z.lt_ge_cases (x + c) F.p) as [Hlt | Hge].
    + rewrite Z.mod_small by lia. lia.
    + rewrite mod_once by lia. lia.
Qed.

Lemma is_bit_0 : Circomlib.is_bit 0 = true.
Proof. reflexivity. Qed.

Lemma is_bit_1 : Circomlib.is_bit 1 = true.
Proof. reflexivity. Qed.

End FFacts.

(** ** The bit decomposition computed by [Num2Bits] *)
Module Num2BitsFacts.
Import Circomlib.

Lemma out_S n x :
  Num2Bits_out (S n) x = x mod 2 :: Num2Bits_out n (x / 2).
Proof.
  unfold Num2Bits_out. cbn [seq map]. f_equal.
  - rewrite Z.shiftr_0_r. change 1 with (Z.ones 1).
    rewrite Z.land_ones by lia. reflexivity.
  - rewrite <- seq_shift, map_map. apply map_ext. intros i.
    f_equal. rewrite !Z.shiftr_div_pow2 by lia.
    rewrite Nat2Z.inj_succ, Z.pow_succ_r by lia.
    rewrite Z.div_div by lia. reflexivity.
Qed.

Lemma out_length n x : length (Num2Bits_out n x) = n.
Proof. unfold Num2Bits_out. rewrite length_map, length_seq. reflexivity. Qed.

Lemma out_value n x : bits_value (Num2Bits_out n x) = x mod 2 ^ Z.of_nat n.
Proof.
  revert x. induction n as [| n IH]; intros x.
  - cbn. rewrite Z.mod_1_r. reflexivity.
  - rewrite out_S. cbn [bits_value]. rewrite IH.
    rewrite Nat2Z.inj_succ, Z.pow_succ_r by lia.
    rewrite Z.rem_mul_r by lia. reflexivity.
Qed.

Lemma out_bits n x : forallb is_bit (Num2Bits_out n x) = true.
Proof.
  revert x. induction n as [| n IH]; intros x; [reflexivity |].
  rewrite out_S. cbn [forallb]. rewrite IH, andb_true_r.
  pose proof (Z.mod_pos_bound x 2 ltac:(lia)) as Hb.
  assert (x mod 2 = 0 \/ x mod 2 = 1) as [-> | ->] by lia; reflexivity.
Qed.

Lemma out_nth n x :
  nth n (Num2Bits_out (S n) x) 0 = (x / 2 ^ Z.of_nat n) mod 2.
Proof.
  revert x. induction n as [| n IH]; intros x.
  - rewrite out_S. cbn. rewrite Z.div_1_r. reflexivity.
  - rewrite out_S. cbn [nth]. rewrite IH.
    rewrite Nat2Z.inj_succ, Z.pow_succ_r by lia.
    rewrite Z.div_div by lia. reflexivity.
Qed.

(** The linear combination accumulated by the loop is the digits' value,
    reduced in the field. *)
Lemma lc1_mod out : forall lc e2,
  Num2Bits_lc1 out lc e2 mod F.p = (lc + e2 * bits_value out) mod F.p.
Proof.
  induction out as [| b rest IH]; intros lc e2; cbn [Num2Bits_lc1 bits_value].
  - f_equal. lia.
  - rewrite IH. unfold F.add, F.mul.
    set (t := bits_value rest).
    rewrite Zplus_mod_idemp_l.
    replace (lc + (b * e2) mod F.p + (e2 + e2) mod F.p * t)
      with ((b * e2) mod F.p + (lc + (e2 + e2) mod F.p * t)) by ring.
    rewrite Zplus_mod_idemp_l.
    replace (b * e2 + (lc + (e2 + e2) mod F.p * t))
      with ((e2 + e2) mod F.p * t + (lc + b * e2)) by ring.
    rewrite Zplus_mod, Zmult_mod_idemp_l, <- Zplus_mod.
    f_equal. ring.
Qed.

Lemma lc1_reduced out : forall lc e2,
  lc mod F.p = lc -> Num2Bits_lc1 out lc e2 mod F.p = Num2Bits_lc1 out lc e2.
Proof.
  induction out as [| b rest IH]; intros lc e2 H; cbn [Num2Bits_lc1]; [exact H |].
  apply IH. unfold F.add. apply Z.mod_mod. pose proof FFacts.p_pos; lia.
Qed.

Lemma lc1_value out : Num2Bits_lc1 out 0 1 = bits_value out mod F.p.
Proof.
  rewrite <- (lc1_reduced out 0 1) by reflexivity.
  rewrite lc1_mod. f_equal. lia.
Qed.

(** On the digits it computes, [Num2Bits(n)] holds exactly when the input
    fits in [n] bits (for [n] up to 253, so that [2^n] is below [p]). *)
Lemma witness_constraints n x :
  (n <= 253)%nat -> F.elem x ->
  Num2Bits_constraints n x (Num2Bits_out n x) = (x <? 2 ^ Z.of_nat n).
Proof.
  intros Hn [Hx0 Hxp]. unfold Num2Bits_constraints.
  rewrite out_length, Nat.eqb_refl, out_bits, lc1_value, out_value. cbn [andb].
  assert (0 < 2 ^ Z.of_nat n) as Hpos by (apply Z.pow_pos_nonneg; lia).
  assert (2 ^ Z.of_nat n <= 2 ^ 253) as Hle
    by (apply Z.pow_le_mono_r; lia).
  pose proof FFacts.p_gt_2_253 as Hp.
  pose proof (Z.mod_pos_bound x (2 ^ Z.of_nat n) Hpos) as Hm.
  rewrite (Z.mod_small (x mod _) F.p) by lia.
  destruct (Z.ltb_spec x (2 ^ Z.of_nat n)) as [Hlt | Hge].
  - rewrite Z.mod_small by lia. apply Z.eqb_refl.
  - apply Z.eqb_neq. lia.
Qed.

End Num2BitsFacts.

(** ** The comparator [LessThan] as the circuit uses it *)
Module LessThanFacts.
Import Circomlib.

(** On the signals the calculator computes, the comparator's own
    constraints together with [out === 1] hold exactly when
    [in[0] + 2^n - in[1]], reduced in the field, is below [2^n]. *)
Lemma witness_accepts n in0 in1 :
  (n <= 252)%nat ->
  let s := LessThan_witness n in0 in1 in
  Num2Bits_constraints (S n) (n2b_in s) (n2b_out s) && (lt_out s =? 1)
  = (LessThan_n2b_in n in0 in1 <? 2 ^ Z.of_nat n).
Proof.
  intros Hn. cbn [LessThan_witness n2b_in n2b_out lt_out].
  set (x := LessThan_n2b_in n in0 in1).
  assert (F.elem x) as Hx by apply FFacts.sub_elem.
  rewrite Num2BitsFacts.witness_constraints by (lia || assumption).
  unfold LessThan_out. rewrite Num2BitsFacts.out_nth.
  rewrite Nat2Z.inj_succ, Z.pow_succ_r by lia.
  assert (0 < 2 ^ Z.of_nat n) as Hpos by (apply Z.pow_pos_nonneg; lia).
  destruct Hx as [Hx0 _].
  destruct (Z.ltb_spec x (2 ^ Z.of_nat n)) as [Hlt | Hge].
  - rewrite Z.div_small by lia.
    assert (x < 2 * 2 ^ Z.of_nat n) as ->%Z.ltb_lt by lia. reflexivity.
  - destruct (Z.ltb_spec x (2 * 2 ^ Z.of_nat n)) as [Hlt2 | Hge2]; [| reflexivity].
    assert (x / 2 ^ Z.of_nat n = 1) as ->.
    { symmetry. apply (Z.div_unique x (2 ^ Z.of_nat n) 1 (x - 2 ^ Z.of_nat n)); lia. }
    reflexivity.
Qed.

Lemma witness_self n in0 in1 :
  let s := LessThan_witness n in0 in1 in
  LessThan_constraints n s = Num2Bits_constraints (S n) (n2b_in s) (n2b_out s).
Proof.
  unfold LessThan_constraints. cbn. rewrite !Z.eqb_refl, andb_true_r. reflexivity.
Qed.

End LessThanFacts.

(** ** Soundness of the bit constraints

    What any assignment satisfying the constraints must look like, not only
    the one the calculator computes.  This is where the primality of the
    modulus is used: [b * (b - 1) = 0] forces [b] to be 0 or 1. *)
Module SoundnessFacts.
Import Circomlib.

Definition reduce (out : list Z) : list Z := map (fun b => b mod F.p) out.

Definition bit (b : Z) : Prop := b = 0 \/ b = 1.

Lemma is_bit_sound b : is_bit b = true -> bit (b mod F.p).
Proof.
  unfold is_bit, F.mul, F.sub, bit. intros H. apply Z.eqb_eq in H.
  pose proof FFacts.p_pos as Hp.
  apply Z.mod_divide in H; [| lia].
  apply (Z.divide_prime_mul _ _ _ Primality.prime_p) in H as [H | H].
  - left. apply Z.mod_divide in H; [exact H | lia].
  - right. apply Z.mod_divide in H; [| lia]. rewrite Z.mod_mod in H by lia.
    replace b with ((b - 1) + 1) by ring.
    rewrite Zplus_mod, H. reflexivity.
Qed.

Lemma reduce_bits out : forallb is_bit out = true -> Forall bit (reduce out).
Proof.
  induction out as [| b rest IH]; cbn [forallb reduce map]; intros H.
  - constructor.
  - apply andb_prop in H as [Hb Hrest].
    constructor; [apply is_bit_sound, Hb | apply IH, Hrest].
Qed.

Lemma bits_value_reduce out :
  bits_value out mod F.p = bits_value (reduce out) mod F.p.
Proof.
  induction out as [| b rest IH]; [reflexivity |].
  cbn [reduce map bits_value]. fold (reduce rest).
  pose proof FFacts.p_pos as Hp.
  rewrite (Zplus_mod b (2 * bits_value rest)).
  rewrite (Zplus_mod (b mod F.p) (2 * bits_value (reduce rest))).
  rewrite Z.mod_mod by lia.
  rewrite (Zmult_mod 2 (bits_value rest)), IH, <- Zmult_mod. reflexivity.
Qed.

Lemma bits_value_bound out :
  Forall bit out -> 0 <= bits_value out < 2 ^ Z.of_nat (length out).
Proof.
  induction 1 as [| b rest Hb _ IH]; cbn [bits_value length]; [lia |].
  rewrite Nat2Z.inj_succ, Z.pow_succ_r by lia.
  destruct Hb as [-> | ->]; lia.
Qed.

(** With the top digit 0 the value fits in one bit less. *)
Lemma bits_value_top n : forall out,
  Forall bit out -> length out = S n -> nth n out 0 = 0 ->
  bits_value out < 2 ^ Z.of_nat n.
Proof.
  induction n as [| n IH]; intros out Hbits Hlen Htop.
  - destruct out as [| b [| ? ?]]; try discriminate Hlen.
    cbn in *. lia.
  - destruct out as [| b rest]; [discriminate Hlen |].
    inversion Hbits as [| ? ? Hb Hrest]; subst.
    cbn [bits_value]. cbn [nth] in Htop.
    specialize (IH rest Hrest ltac:(cbn in Hlen; lia) Htop).
    rewrite Nat2Z.inj_succ, Z.pow_succ_r by lia.
    destruct Hb as [-> | ->]; lia.
Qed.

(** [Num2Bits(n)] on any digits: the input is the value of the digits read
    in the field, and these are bits. *)
Lemma Num2Bits_sound n x out :
  (n <= 253)%nat -> F.elem x ->
  Num2Bits_constraints n x out = true ->
  length out = n /\ Forall bit (reduce out) /\ x = bits_value (reduce out).
Proof.
  intros Hn Hx H. unfold Num2Bits_constraints in H.
  apply andb_prop in H as [H Hlc]. apply andb_prop in H as [Hlen Hbits].
  apply Nat.eqb_eq in Hlen. apply Z.eqb_eq in Hlc.
  pose proof (reduce_bits out Hbits) as Hred.
  split; [exact Hlen |]. split; [exact Hred |].
  rewrite <- Hlc, Num2BitsFacts.lc1_value, bits_value_reduce.
  pose proof (bits_value_bound _ Hred) as Hb.
  unfold reduce in Hb. rewrite length_map, Hlen in Hb. fold (reduce out) in Hb.
  assert (2 ^ Z.of_nat n <= 2 ^ 253) by (apply Z.pow_le_mono_r; lia).
  pose proof FFacts.p_gt_2_253.
  apply Z.mod_small. lia.
Qed.

(** [LessThan(n)] with [out === 1], on any assignment: the decomposed
    quantity is below [2^n]. *)
Lemma LessThan_sound n s :
  (n <= 252)%nat ->
  LessThan_constraints n s = true -> lt_out s = 1 ->
  LessThan_n2b_in n (lt_in0 s) (lt_in1 s) < 2 ^ Z.of_nat n.
Proof.
  intros Hn H Hout. unfold LessThan_constraints in H.
  apply andb_prop in H as [H Ho]. apply andb_prop in H as [Hin Hbits].
  apply Z.eqb_eq in Hin, Ho.
  set (x := LessThan_n2b_in n (lt_in0 s) (lt_in1 s)) in *.
  assert (F.elem x) as Hx by apply FFacts.sub_elem.
  rewrite Hin in Hbits.
  destruct (Num2Bits_sound (S n) x (n2b_out s) ltac:(lia) Hx Hbits)
    as (Hlen & Hred & Hval).
  rewrite Hval. apply bits_value_top; [exact Hred | | ].
  - unfold reduce. rewrite length_map. exact Hlen.
  - unfold reduce.
    change 0 with ((fun b => b mod F.p) 0) at 1. rewrite map_nth.
    rewrite Hout in Ho. unfold LessThan_out, F.sub in Ho.
    pose proof FFacts.p_pos as Hp.
    set (b := nth n (n2b_out s) 0) in *.
    assert ((1 - b - 1) mod F.p = 0) as H0.
    { rewrite Zminus_mod, <- Ho. rewrite (Z.mod_small 1) by (unfold F.p; lia).
      reflexivity. }
    apply Z.mod_divide in H0; [| lia].
    apply Z.mod_divide; [lia |].
    destruct H0 as [k Hk]. exists (- k). lia.
Qed.

End SoundnessFacts.

(** ** The circuit: what witness generation accepts *)
Module CircuitFacts.
Import Circomlib Circuit.

Lemma read_inputs_elem raw :
  let i := read_inputs raw in
  F.elem (complianceStatusHash i) /\ F.elem (gpsLatitude i)
  /\ F.elem (gpsLongitude i) /\ F.elem (expectedComplianceHash i).
Proof. cbn. repeat split; apply Z.mod_pos_bound, FFacts.p_pos. Qed.

Lemma lat_n2b_in_eq lat : lat_n2b_in lat = (lat + 1197151) mod F.p.
Proof.
  unfold lat_n2b_in, LessThan_n2b_in, F.sub, F.add.
  change (Z.shiftl 1 (Z.of_nat 21)) with 2097152.
  rewrite Zplus_mod_idemp_l, Zminus_mod_idemp_l. f_equal. lia.
Qed.

Lemma lng_n2b_in_eq lng : lng_n2b_in lng = (lng + 2394303) mod F.p.
Proof.
  unfold lng_n2b_in, LessThan_n2b_in, F.sub, F.add.
  change (Z.shiftl 1 (Z.of_nat 22)) with 4194304.
  rewrite Zplus_mod_idemp_l, Zminus_mod_idemp_l. f_equal. lia.
Qed.

(** The window of latitudes the comparator lets through: the upper bound
    is the intended one, the lower bound is [900000 + 1 - 2^21]. *)
Lemma lat_window lat :
  F.elem lat ->
  (lat_n2b_in lat <? 2 ^ 21)
  = (-1197151 <=? F.to_signed lat) && (F.to_signed lat <=? 900000).
Proof.
  intros H. rewrite lat_n2b_in_eq, FFacts.shifted_window by (done || lia).
  f_equal. lia.
Qed.

(** The same for longitudes: the lower bound is [1800000 + 1 - 2^22]. *)
Lemma lng_window lng :
  F.elem lng ->
  (lng_n2b_in lng <? 2 ^ 22)
  = (-2394303 <=? F.to_signed lng) && (F.to_signed lng <=? 1800000).
Proof.
  intros H. rewrite lng_n2b_in_eq, FFacts.shifted_window by (done || lia).
  f_equal. lia.
Qed.

Section WithPoseidon.
Variable Poseidon : list Z -> Z.

Lemma status_gate i :
  F.elem (complianceStatusHash i) -> F.elem (expectedComplianceHash i) ->
  (statusCheck (compute Poseidon i) =? 0) = status_ok i.
Proof.
  intros Ha Hb. cbn. unfold status_ok.
  destruct (Z.eqb_spec (complianceStatusHash i) (expectedComplianceHash i)) as [-> | Hne].
  - rewrite FFacts.sub_diag. reflexivity.
  - apply Z.eqb_neq. intros H. apply Hne, FFacts.sub_eq_0; assumption.
Qed.

Lemma lat_gate i :
  let s := latCheck (compute Poseidon i) in
  Num2Bits_constraints 22 (n2b_in s) (n2b_out s) && (lt_out s =? 1) = lat_ok i.
Proof. apply (LessThanFacts.witness_accepts 21). lia. Qed.

Lemma lng_gate i :
  let s := lngCheck (compute Poseidon i) in
  Num2Bits_constraints 23 (n2b_in s) (n2b_out s) && (lt_out s =? 1) = lng_ok i.
Proof. apply (LessThanFacts.witness_accepts 22). lia. Qed.

(** The computed assignment meets the constraints exactly on accepted
    inputs. *)
Lemma compute_constraints i :
  F.elem (complianceStatusHash i) -> F.elem (expectedComplianceHash i) ->
  constraints Poseidon (compute Poseidon i) = accepted i.
Proof.
  intros Ha Hb. unfold accepted.
  rewrite <- (status_gate i Ha Hb), <- lat_gate, <- lng_gate.
  unfold constraints.
  cbn [compute inputs statusCheck shiftedLat shiftedLng latCheck lngCheck
       hasher_out complianceCommitment].
  rewrite !LessThanFacts.witness_self.
  cbn [LessThan_witness lt_in0 lt_in1 lt_out n2b_in n2b_out].
  rewrite !Z.eqb_refl. cbn [andb].
  rewrite !andb_true_r, <- !andb_assoc. reflexivity.
Qed.

Lemma generate_witness_accepted raw :
  accepted (read_inputs raw) = true ->
  generate_witness Poseidon raw = Ok (compute Poseidon (read_inputs raw)).
Proof.
  unfold accepted. intros H.
  apply andb_prop in H as [H Hlng]. apply andb_prop in H as [Hst Hlat].
  destruct (read_inputs_elem raw) as (Ha & _ & _ & Hb).
  rewrite <- (status_gate _ Ha Hb) in Hst.
  rewrite <- lat_gate in Hlat. rewrite <- lng_gate in Hlng.
  apply andb_prop in Hlat as [Hl1 Hl2]. apply andb_prop in Hlng as [Hg1 Hg2].
  unfold generate_witness, enforce, bind.
  rewrite Hst, Hl1, Hl2, Hg1, Hg2. reflexivity.
Qed.

Lemma generate_witness_rejected raw :
  accepted (read_inputs raw) = false ->
  exists v, generate_witness Poseidon raw = Err (ConstraintViolation v).
Proof.
  unfold accepted. intros H.
  destruct (read_inputs_elem raw) as (Ha & _ & _ & Hb).
  rewrite <- (status_gate _ Ha Hb), <- lat_gate, <- lng_gate in H.
  unfold generate_witness, enforce, bind.
  repeat match goal with
         | |- context [if ?b then _ else _] =>
             destruct b; [| eexists; reflexivity]
         end.
  discriminate H.
Qed.

(** Witness generation is decided by the three gates. *)
Lemma generate_witness_ok_iff raw :
  (exists w, generate_witness Poseidon raw = Ok w)
  <-> accepted (read_inputs raw) = true.
Proof.
  split.
  - intros [w Hw]. destruct (accepted (read_inputs raw)) eqn:E; [reflexivity |].
    destruct (generate_witness_rejected raw E) as [v Hv]. congruence.
  - intros H. eexists. apply generate_witness_accepted, H.
Qed.

(** What it returns is the computed assignment, and it satisfies every
    constraint. *)
Lemma generate_witness_sound raw w :
  generate_witness Poseidon raw = Ok w ->
  w = compute Poseidon (read_inputs raw) /\ constraints Poseidon w = true.
Proof.
  intros Hw.
  assert (accepted (read_inputs raw) = true) as Hacc
    by (apply generate_witness_ok_iff; eauto).
  rewrite (generate_witness_accepted raw Hacc) in Hw.
  injection Hw as <-. split; [reflexivity |].
  destruct (read_inputs_elem raw) as (Ha & _ & _ & Hb).
  rewrite compute_constraints; assumption.
Qed.

(** Any assignment meeting the constraints has equal status hashes:
    the status gate cannot be bypassed by another choice of the
    intermediate signals. *)
Lemma constraints_status w :
  F.elem (complianceStatusHash (inputs w)) ->
  F.elem (expectedComplianceHash (inputs w)) ->
  constraints Poseidon w = true ->
  complianceStatusHash (inputs w) = expectedComplianceHash (inputs w).
Proof.
  intros Ha Hb H. unfold constraints in H.
  do 12 (apply andb_prop in H as [H _]).
  apply andb_prop in H as [H1 H2].
  apply Z.eqb_eq in H1, H2. rewrite H1 in H2.
  apply FFacts.sub_eq_0; assumption.
Qed.

(** Any assignment meeting the constraints passes the three gates: the
    comparators cannot be satisfied by another choice of bits. *)
Lemma constraints_accepted w :
  F.elem (complianceStatusHash (inputs w)) ->
  F.elem (expectedComplianceHash (inputs w)) ->
  constraints Poseidon w = true ->
  accepted (inputs w) = true.
Proof.
  intros Ha Hb H.
  pose proof (constraints_status w Ha Hb H) as Hst.
  unfold constraints in H.
  do 2 (apply andb_prop in H as [H _]).
  apply andb_prop in H as [H Hlngout]. apply andb_prop in H as [H Hlng].
  apply andb_prop in H as [H Hlng1]. apply andb_prop in H as [H Hlng0].
  apply andb_prop in H as [H Hlatout]. apply andb_prop in H as [H Hlat].
  apply andb_prop in H as [H Hlat1]. apply andb_prop in H as [H Hlat0].
  apply andb_prop in H as [H HsLng]. apply andb_prop in H as [_ HsLat].
  apply Z.eqb_eq in Hlngout, Hlng1, Hlng0, Hlatout, Hlat1, Hlat0, HsLng, HsLat.
  pose proof (SoundnessFacts.LessThan_sound 21 _ ltac:(lia) Hlat Hlatout) as Hla.
  pose proof (SoundnessFacts.LessThan_sound 22 _ ltac:(lia) Hlng Hlngout) as Hlo.
  rewrite Hlat0, Hlat1, HsLat in Hla. rewrite Hlng0, Hlng1, HsLng in Hlo.
  unfold accepted, status_ok, lat_ok, lng_ok, lat_n2b_in, lng_n2b_in.
  rewrite Hst, Z.eqb_refl. cbn [andb].
  apply andb_true_intro. split; apply Z.ltb_lt; assumption.
Qed.

(** The circuit is satisfiable on exactly the inputs witness generation
    accepts. *)
Lemma satisfiable_iff raw :
  satisfiable Poseidon (read_inputs raw) <-> accepted (read_inputs raw) = true.
Proof.
  destruct (read_inputs_elem raw) as (Ha & _ & _ & Hb).
  split.
  - intros (w & Hin & Hc). rewrite <- Hin in Ha, Hb |- *.
    apply constraints_accepted; assumption.
  - intros Hacc. exists (compute Poseidon (read_inputs raw)).
    split; [reflexivity |]. rewrite compute_constraints; assumption.
Qed.

(** Any assignment meeting the constraints carries the Poseidon hash of
    the five private inputs on the output wire. *)
Lemma constraints_commitment w :
  constraints Poseidon w = true ->
  complianceCommitment w = Poseidon (hasher_inputs (inputs w)).
Proof.
  intros H. unfold constraints in H.
  apply andb_prop in H as [H H2]. apply andb_prop in H as [_ H1].
  apply Z.eqb_eq in H1, H2. congruence.
Qed.

End WithPoseidon.

End CircuitFacts.

(** ** The mock prover: what the script does *)
Module MockFacts.
Import Mock.

Section Script.
Variable sha256 : string -> string.
Variable randomBytes : nat -> string.

Lemma statusMatch_true i :
  statusMatch i = true <-> complianceStatusHash i = expectedComplianceHash i.
Proof. apply String.eqb_eq. Qed.

Lemma statusMatch_false i :
  statusMatch i = false <-> complianceStatusHash i <> expectedComplianceHash i.
Proof. apply String.eqb_neq. Qed.

(** A status mismatch stops the script before anything is written. *)
Lemma mismatch_exits i fs :
  statusMatch i = false ->
  generate_mock_proof sha256 randomBytes i fs
  = (Exited 1 (ConstraintViolation StatusCheck), fs).
Proof. intros H. unfold generate_mock_proof. rewrite H. reflexivity. Qed.

(** The verification step on the script's own environment compares a
    digest with itself. *)
Lemma verify_script_env i :
  verify sha256 (script_env sha256 randomBytes i) = true.
Proof. unfold verify. cbn. apply String.eqb_refl. Qed.

(** On a status match the script runs to completion, writes its three
    files and reports the proof valid. *)
Lemma match_completes i fs :
  statusMatch i = true ->
  generate_mock_proof sha256 randomBytes i fs
  = (Completed (script_env sha256 randomBytes i) true,
     <["build/verification_key.json"%string :=
         VerificationKeyJson (verificationKey (script_env sha256 randomBytes i))]>
       (<["build/public.json"%string :=
            PublicJson (publicSignals (script_env sha256 randomBytes i))]>
          (<["build/proof.json"%string :=
               ProofJson (mockProof (script_env sha256 randomBytes i))]> fs))).
Proof.
  intros H. unfold generate_mock_proof. rewrite H. cbn [negb].
  cbn -[insert]. unfold verify. cbn. rewrite String.eqb_refl. reflexivity.
Qed.

(** The script checks no coordinate: whatever strings stand for latitude
    and longitude, a matching status hash is enough for it to report a
    verified proof. *)
Lemma coordinates_unchecked h lat lng wallet n fs :
  reported
    (fst (generate_mock_proof sha256 randomBytes
            {| complianceStatusHash := h; gpsLatitude := lat; gpsLongitude := lng;
               farmerWalletHash := wallet; nonce := n;
               expectedComplianceHash := h |} fs))
  = Some VALID.
Proof.
  rewrite match_completes; [reflexivity |].
  apply statusMatch_true. reflexivity.
Qed.

(** The verification step reads two variables only. *)
Lemma verify_ext e e' :
  commitmentInput e = commitmentInput e' -> commitment e = commitment e' ->
  verify sha256 e = verify sha256 e'.
Proof. unfold verify. intros -> ->. reflexivity. Qed.

End Script.
End MockFacts.

(** ** Coordinates: what the circuit accepts and what is in range *)
Module RangeFacts.
Import Circuit.

(** The inputs the circuit accepts, on signed coordinates: the upper
    bounds are the documented ones, the lower bounds are not. *)
Lemma accepted_window i :
  F.elem (gpsLatitude i) -> F.elem (gpsLongitude i) ->
  accepted i
  = status_ok i
    && ((-1197151 <=? F.to_signed (gpsLatitude i))
        && (F.to_signed (gpsLatitude i) <=? 900000))
    && ((-2394303 <=? F.to_signed (gpsLongitude i))
        && (F.to_signed (gpsLongitude i) <=? 1800000)).
Proof.
  intros Hlat Hlng. unfold accepted, lat_ok, lng_ok.
  rewrite CircuitFacts.lat_window, CircuitFacts.lng_window by assumption.
  reflexivity.
Qed.

(** Coordinates in the documented ranges pass both comparators. *)
Lemma in_range_accepted i :
  F.elem (gpsLatitude i) -> F.elem (gpsLongitude i) ->
  status_ok i = true ->
  lat_in_range (gpsLatitude i) = true ->
  lng_in_range (gpsLongitude i) = true ->
  accepted i = true.
Proof.
  intros Hlat Hlng Hst Hla Hlo. rewrite accepted_window by assumption.
  unfold lat_in_range, lng_in_range in *. rewrite Hst. lia.
Qed.

(** A coordinate above its range is rejected. *)
Lemma above_range_rejected i :
  F.elem (gpsLatitude i) -> F.elem (gpsLongitude i) ->
  900000 < F.to_signed (gpsLatitude i) \/ 1800000 < F.to_signed (gpsLongitude i) ->
  accepted i = false.
Proof.
  intros Hlat Hlng H. rewrite accepted_window by assumption.
  destruct (status_ok i); cbn [andb]; lia.
Qed.

Lemma to_signed_of_Z x :
  - (F.p / 2) <= x <= F.p / 2 -> F.to_signed (F.of_Z x) = x.
Proof.
  intros Hx. pose proof FFacts.p_odd as Hodd.
  pose proof FFacts.p_pos as Hp.
  unfold F.to_signed, F.of_Z.
  destruct (Z.lt_ge_cases x 0) as [Hneg | Hnn].
  - replace (x mod F.p) with (x + F.p).
    + destruct (Z.leb_spec (x + F.p) (F.p / 2)); lia.
    + apply (Z.mod_unique x F.p (-1) (x + F.p)); lia.
  - rewrite Z.mod_small by lia.
    destruct (Z.leb_spec x (F.p / 2)); lia.
Qed.

Section WithPoseidon.
Variable Poseidon : list Z -> Z.

(** Above the documented ranges no assignment satisfies the circuit. *)
Lemma above_range_unsatisfiable raw :
  900000 < F.to_signed (gpsLatitude (read_inputs raw))
  \/ 1800000 < F.to_signed (gpsLongitude (read_inputs raw)) ->
  ~ satisfiable Poseidon (read_inputs raw).
Proof.
  intros H Hsat. apply CircuitFacts.satisfiable_iff in Hsat.
  destruct (CircuitFacts.read_inputs_elem raw) as (_ & Hla & Hlo & _).
  rewrite above_range_rejected in Hsat by assumption. discriminate Hsat.
Qed.

(** The satisfiable inputs, on signed coordinates. *)
Lemma satisfiable_window raw :
  let i := read_inputs raw in
  satisfiable Poseidon i
  <-> complianceStatusHash i = expectedComplianceHash i
      /\ -1197151 <= F.to_signed (gpsLatitude i) <= 900000
      /\ -2394303 <= F.to_signed (gpsLongitude i) <= 1800000.
Proof.
  intros i. unfold i. rewrite CircuitFacts.satisfiable_iff.
  destruct (CircuitFacts.read_inputs_elem raw) as (_ & Hla & Hlo & _).
  rewrite accepted_window by assumption. unfold status_ok.
  rewrite !andb_true_iff, Z.eqb_eq, !Z.leb_le. tauto.
Qed.

(** The range rejection scenario of the specification: a latitude of 91.0
    (910000) fails at [latCheck.out === 1]; 89.9999 (899999) passes. *)
Lemma latitude_910000_rejected :
  generate_witness Poseidon (Samples.with_latitude 910000 Samples.delhi)
  = Err (ConstraintViolation LatCheckOut).
Proof. reflexivity. Qed.

Lemma latitude_910000_unsatisfiable :
  ~ satisfiable Poseidon (read_inputs (Samples.with_latitude 910000 Samples.delhi)).
Proof. apply above_range_unsatisfiable. left. reflexivity. Qed.

Lemma latitude_899999_accepted :
  generate_witness Poseidon (Samples.with_latitude 899999 Samples.delhi)
  = Ok (compute Poseidon (read_inputs (Samples.with_latitude 899999 Samples.delhi))).
Proof. apply CircuitFacts.generate_witness_accepted. reflexivity. Qed.

(** The longitude comparator has the same gap below its range:
    -200.0000 degrees is accepted. *)
Lemma longitude_below_range_accepted :
  let raw := {| complianceStatusHash := 1234567; gpsLatitude := 286139;
                gpsLongitude := -2000000; farmerWalletHash := 7654321;
                nonce := 42; expectedComplianceHash := 1234567 |} in
  lng_in_range (gpsLongitude (read_inputs raw)) = false
  /\ generate_witness Poseidon raw = Ok (compute Poseidon (read_inputs raw)).
Proof.
  cbv zeta. split; [reflexivity |].
  apply CircuitFacts.generate_witness_accepted. reflexivity.
Qed.

End WithPoseidon.
End RangeFacts.

(** ** The replay ledger *)
Module LedgerFacts.
Import Ledger.

Section Ledger.
Context `{Countable Commitment}.
Implicit Types (l : gset Commitment) (c : Commitment).

Lemma redeem_unseen c l : c ∉ l -> redeem c l = (Ok, {[c]} ∪ l).
Proof. intros Hc. unfold redeem. rewrite decide_False by exact Hc. reflexivity. Qed.

Lemma redeem_redeemed c l : c ∈ l -> redeem c l = (Error AlreadyRedeemed, l).
Proof. intros Hc. unfold redeem. rewrite decide_True by exact Hc. reflexivity. Qed.

Lemma state_of_Redeemed l c : state_of l c = Redeemed <-> c ∈ l.
Proof. unfold state_of. case_decide; split; (done || congruence). Qed.

Lemma state_of_Unseen l c : state_of l c = Unseen <-> c ∉ l.
Proof. unfold state_of. case_decide; split; (done || congruence). Qed.

(** Records are only ever added. *)
Lemma redeem_grows c l : l ⊆ snd (redeem c l).
Proof. unfold redeem. case_decide; cbn; set_solver. Qed.

Lemma redeem_records c l : c ∈ snd (redeem c l).
Proof. unfold redeem. case_decide; cbn; set_solver. Qed.

Lemma redeem_all_grows cs : forall l, l ⊆ snd (redeem_all cs l).
Proof.
  induction cs as [| c rest IH]; intros l; cbn [redeem_all]; [done |].
  pose proof (redeem_grows c l) as Hg.
  destruct (redeem c l) as [r l'] eqn:Hr.
  specialize (IH l'). destruct (redeem_all rest l') as [rs l''].
  cbn in *. set_solver.
Qed.

(** One call moves at most the commitment it is called on, and only from
    [Unseen] to [Redeemed]. *)
Lemma redeem_step c l c' :
  state_of (snd (redeem c l)) c' = state_of l c'
  \/ (c' = c /\ step (state_of l c') (state_of (snd (redeem c l)) c')).
Proof.
  unfold redeem. destruct (decide (c ∈ l)) as [Hin | Hout]; cbn [snd]; [by left |].
  destruct (decide (c' = c)) as [-> | Hne].
  - right. split; [done |].
    replace (state_of l c) with Unseen by (symmetry; by apply state_of_Unseen).
    replace (state_of ({[c]} ∪ l) c) with Redeemed
      by (symmetry; apply state_of_Redeemed; set_solver).
    constructor.
  - left. unfold state_of.
    destruct (decide (c' ∈ {[c]} ∪ l)) as [H1 | H1], (decide (c' ∈ l)) as [H2 | H2];
      [reflexivity | | | reflexivity].
    + exfalso. apply H2. apply elem_of_union in H1 as [H1 | H1]; [| exact H1].
      apply elem_of_singleton in H1. contradiction.
    + exfalso. apply H1, elem_of_union. right. exact H2.
Qed.

End Ledger.
End LedgerFacts.

(** ** The submission handler *)
Module FrontendFacts.
Import Frontend.

Section Handler.
Variable now : string.

(** The error paths of the [try] block: the backend is really called and
    either the fetch or the reading of the body throws. *)
Lemma try_body_throws use_mock backend st :
  (exists err, try_body now use_mock backend st = inl err)
  <-> use_mock = false /\ (backend = FetchRejects \/ backend = JsonRejects).
Proof.
  unfold try_body. split.
  - intros [err Herr]. destruct use_mock; [discriminate Herr |].
    split; [reflexivity |].
    destruct backend; [left | right | discriminate Herr]; reflexivity.
  - intros [-> [-> | ->]]; exists Exception; reflexivity.
Qed.

(** As shipped ([USE_MOCK = true]) the backend is never called and every
    submission shows the mock result. *)
Lemma handleSubmit_as_shipped backend st :
  handleSubmit now USE_MOCK backend st
  = {| isSubmitting := false; result := Some (MOCK_COMPLIANCE_RESULT now) |}.
Proof. reflexivity. Qed.

(** A body the backend returns is displayed as it is. *)
Lemma handleSubmit_backend_result json st :
  handleSubmit now false (JsonResolves json) st
  = {| isSubmitting := false; result := Some json |}.
Proof. reflexivity. Qed.

End Handler.
End FrontendFacts.

(** * The claims *)

(** C1. Soundness on the status gate.  Whenever the witness's
    complianceStatusHash differs from the public expectedComplianceHash,
    proof generation fails with a ConstraintViolation and yields no proof:
    in the circuit, witness generation stops at [statusCheck === 0] and no
    assignment of the remaining signals satisfies the constraints; in the
    mock prover, the script exits with code 1 before any file is written. *)
Theorem C1_status_mismatch_fails :
  (forall (Poseidon : list Z -> Z) (raw : Circuit.Inputs),
      F.of_Z (Circuit.complianceStatusHash raw)
        <> F.of_Z (Circuit.expectedComplianceHash raw) ->
      Circuit.generate_witness Poseidon raw = Err (ConstraintViolation StatusCheck)
      /\ ~ Circuit.satisfiable Poseidon (Circuit.read_inputs raw))
  /\ (forall (sha256 : string -> string) (randomBytes : nat -> string)
             (i : Mock.Input) (fs : gmap string Mock.File),
      Mock.complianceStatusHash i <> Mock.expectedComplianceHash i ->
      Mock.generate_mock_proof sha256 randomBytes i fs
        = (Mock.Exited 1 (ConstraintViolation StatusCheck), fs)
      /\ forall env verified,
           fst (Mock.generate_mock_proof sha256 randomBytes i fs)
             <> Mock.Completed env verified).
Proof.
  split.
  - intros Poseidon raw Hne.
    destruct (CircuitFacts.read_inputs_elem raw) as (Ha & _ & _ & Hb).
    split.
    + unfold Circuit.generate_witness, enforce, bind.
      rewrite (CircuitFacts.status_gate Poseidon _ Ha Hb).
      unfold Circuit.status_ok. cbn [Circuit.read_inputs
        Circuit.complianceStatusHash Circuit.expectedComplianceHash].
      apply Z.eqb_neq in Hne. rewrite Hne. reflexivity.
    + intros (w & Hin & Hc). apply Hne.
      pose proof (CircuitFacts.constraints_status Poseidon w) as Hs.
      rewrite Hin in Hs. exact (Hs Ha Hb Hc).
  - intros sha256 randomBytes i fs Hne.
    apply MockFacts.statusMatch_false in Hne.
    rewrite (MockFacts.mismatch_exits sha256 randomBytes i fs Hne).
    split; [reflexivity | intros env verified; discriminate].
Qed.

Lemma C1_status_mismatch_fails_witness :
  (Circuit.generate_witness Samples.sum_hash (Samples.with_status 7777777 Samples.delhi)
     = Err (ConstraintViolation StatusCheck)
   /\ ~ Circuit.satisfiable Samples.sum_hash
          (Circuit.read_inputs (Samples.with_status 7777777 Samples.delhi)))
  /\ (Mock.generate_mock_proof Samples.id_hash Samples.zeros Samples.violation_json ∅
        = (Mock.Exited 1 (ConstraintViolation StatusCheck), ∅)
      /\ forall env verified,
           fst (Mock.generate_mock_proof Samples.id_hash Samples.zeros
                  Samples.violation_json ∅)
             <> Mock.Completed env verified).
Proof.
  split.
  - apply (proj1 C1_status_mismatch_fails Samples.sum_hash
             (Samples.with_status 7777777 Samples.delhi)).
    vm_compute. discriminate.
  - apply (proj2 C1_status_mismatch_fails Samples.id_hash Samples.zeros
             Samples.violation_json ∅).
    vm_compute. discriminate.
Defined.

(** C2. The coordinate range checks at a latitude below the documented
    range.  The latitude comparator checks [shiftedLat < 1800001] through
    [LessThan(21)], which decomposes [shiftedLat + 2^21 - 1800001] into 22
    bits and never constrains [shiftedLat] itself to 21 bits.  A latitude
    of -100.0000 degrees (-1000000, outside [-900000, 900000]) wraps to a
    shifted value of [p - 100000], for which that sum is 197151: witness
    generation succeeds, the computed assignment satisfies every
    constraint, and the circuit is satisfiable although the latitude is
    out of range.  (Above the range the checks do reject: see
    [RangeFacts.satisfiable_window] for the exact set of satisfiable
    inputs and [RangeFacts.latitude_910000_unsatisfiable],
    [RangeFacts.latitude_899999_accepted] for the specification's
    scenario.) *)
Theorem C2_latitude_below_range_accepted :
  forall Poseidon : list Z -> Z,
    let raw := Samples.with_latitude (-1000000) Samples.delhi in
    let i := Circuit.read_inputs raw in
    F.to_signed (Circuit.gpsLatitude i) = -1000000
    /\ Circuit.lat_in_range (Circuit.gpsLatitude i) = false
    /\ Circuit.shiftedLat (Circuit.compute Poseidon i) = F.p - 100000
    /\ Circomlib.n2b_in (Circuit.latCheck (Circuit.compute Poseidon i)) = 197151
    /\ Circuit.generate_witness Poseidon raw = Ok (Circuit.compute Poseidon i)
    /\ Circuit.constraints Poseidon (Circuit.compute Poseidon i) = true
    /\ Circuit.satisfiable Poseidon i.
Proof.
  intros Poseidon raw i.
  assert (Circuit.accepted i = true) as Hacc by reflexivity.
  assert (Circuit.constraints Poseidon (Circuit.compute Poseidon i) = true) as Hc.
  { destruct (CircuitFacts.read_inputs_elem raw) as (Ha & _ & _ & Hb).
    fold i in Ha, Hb. rewrite CircuitFacts.compute_constraints; assumption. }
  do 4 (split; [reflexivity |]).
  split; [apply CircuitFacts.generate_witness_accepted, Hacc |].
  split; [exact Hc |].
  exists (Circuit.compute Poseidon i). split; [reflexivity | exact Hc].
Qed.

(** C3. The published commitment is the arity-5 hash of exactly the five
    private inputs, and is determined by them.

    Circuit: on inputs the circuit accepts, witness generation returns an
    assignment whose public signals, what snarkjs writes to public.json,
    are [Poseidon(complianceStatusHash, gpsLatitude, gpsLongitude,
    farmerWalletHash, nonce)] followed by the expected hash; every
    assignment that satisfies the constraints carries that hash on the
    output wire, so two satisfying assignments over the same five values
    (nonce included) agree on it.

    Mock prover: on matching status hashes the run completes and writes to
    build/public.json the digest of the same five values joined by a bar,
    followed by the expected hash; two runs on the same input leave the
    same public.json, whatever random bytes fill the proof and the key and
    whatever the files held before. *)
Theorem C3_commitment_is_hash_of_witness :
  (forall (Poseidon : list Z -> Z) (raw : Circuit.Inputs),
      Circuit.accepted (Circuit.read_inputs raw) = true ->
      exists w,
        Circuit.generate_witness Poseidon raw = Ok w
        /\ Circuit.publicSignals w
           = [Poseidon [F.of_Z (Circuit.complianceStatusHash raw);
                        F.of_Z (Circuit.gpsLatitude raw);
                        F.of_Z (Circuit.gpsLongitude raw);
                        F.of_Z (Circuit.farmerWalletHash raw);
                        F.of_Z (Circuit.nonce raw)];
              F.of_Z (Circuit.expectedComplianceHash raw)])
  /\ (forall (Poseidon : list Z -> Z) (w : Circuit.Signals),
      Circuit.constraints Poseidon w = true ->
      Circuit.complianceCommitment w
      = Poseidon [Circuit.complianceStatusHash (Circuit.inputs w);
                  Circuit.gpsLatitude (Circuit.inputs w);
                  Circuit.gpsLongitude (Circuit.inputs w);
                  Circuit.farmerWalletHash (Circuit.inputs w);
                  Circuit.nonce (Circuit.inputs w)])
  /\ (forall (Poseidon : list Z -> Z) (w1 w2 : Circuit.Signals),
      Circuit.constraints Poseidon w1 = true ->
      Circuit.constraints Poseidon w2 = true ->
      Circuit.hasher_inputs (Circuit.inputs w1)
        = Circuit.hasher_inputs (Circuit.inputs w2) ->
      Circuit.complianceCommitment w1 = Circuit.complianceCommitment w2)
  /\ (forall (sha256 : string -> string) (randomBytes : nat -> string)
             (i : Mock.Input) (fs : gmap string Mock.File),
      Mock.statusMatch i = true ->
      exists env fs',
        Mock.generate_mock_proof sha256 randomBytes i fs
        = (Mock.Completed env true, fs')
        /\ Mock.commitment env
           = sha256 (Mock.join "|" [Mock.complianceStatusHash i; Mock.gpsLatitude i;
                                    Mock.gpsLongitude i; Mock.farmerWalletHash i;
                                    Mock.nonce i])
        /\ fs' !! "build/public.json"%string
           = Some (Mock.PublicJson
                     [sha256 (Mock.join "|" [Mock.complianceStatusHash i;
                                             Mock.gpsLatitude i;
                                             Mock.gpsLongitude i;
                                             Mock.farmerWalletHash i;
                                             Mock.nonce i]);
                      Mock.expectedComplianceHash i]))
  /\ (forall (sha256 : string -> string) (rnd1 rnd2 : nat -> string)
             (i : Mock.Input) (fs1 fs2 : gmap string Mock.File),
      Mock.statusMatch i = true ->
      snd (Mock.generate_mock_proof sha256 rnd1 i fs1) !! "build/public.json"%string
      = snd (Mock.generate_mock_proof sha256 rnd2 i fs2) !! "build/public.json"%string).
Proof.
  split; [| split; [| split; [| split]]].
  - intros Poseidon raw Hacc. eexists. split.
    + apply CircuitFacts.generate_witness_accepted, Hacc.
    + reflexivity.
  - intros Poseidon w H. apply (CircuitFacts.constraints_commitment Poseidon w H).
  - intros Poseidon w1 w2 H1 H2 Heq.
    rewrite (CircuitFacts.constraints_commitment Poseidon w1 H1).
    rewrite (CircuitFacts.constraints_commitment Poseidon w2 H2).
    f_equal. exact Heq.
  - intros sha256 randomBytes i fs Hs. eexists. eexists. split.
    + apply MockFacts.match_completes, Hs.
    + split; [reflexivity |].
      rewrite lookup_insert_ne by discriminate. apply lookup_insert_eq.
  - intros sha256 rnd1 rnd2 i fs1 fs2 Hs.
    rewrite !MockFacts.match_completes by exact Hs. cbn [snd].
    rewrite !(lookup_insert_ne _ "build/verification_key.json"%string) by discriminate.
    rewrite !lookup_insert_eq. reflexivity.
Qed.

Lemma C3_commitment_is_hash_of_witness_witness :
  (exists w,
      Circuit.generate_witness Samples.sum_hash Samples.delhi = Ok w
      /\ Circuit.publicSignals w
         = [Samples.sum_hash [F.of_Z 1234567; F.of_Z 286139; F.of_Z 772090;
                              F.of_Z 7654321; F.of_Z 42];
            F.of_Z 1234567])
  /\ (exists env fs',
        Mock.generate_mock_proof Samples.id_hash Samples.zeros Samples.delhi_json ∅
        = (Mock.Completed env true, fs')
        /\ Mock.commitment env = "1234567|286139|772090|7654321|42"%string
        /\ fs' !! "build/public.json"%string
           = Some (Mock.PublicJson
                     ["1234567|286139|772090|7654321|42"%string; "1234567"%string]))
  /\ snd (Mock.generate_mock_proof Samples.id_hash Samples.zeros Samples.delhi_json ∅)
       !! "build/public.json"%string
     = snd (Mock.generate_mock_proof Samples.id_hash Samples.ones Samples.delhi_json
              {[ "build/public.json"%string := Mock.PublicJson ["stale"%string] ]})
         !! "build/public.json"%string.
Proof.
  split; [| split].
  - apply (proj1 C3_commitment_is_hash_of_witness Samples.sum_hash Samples.delhi).
    vm_compute. reflexivity.
  - apply (proj1 (proj2 (proj2 (proj2 C3_commitment_is_hash_of_witness)))
             Samples.id_hash Samples.zeros Samples.delhi_json ∅).
    reflexivity.
  - apply (proj2 (proj2 (proj2 (proj2 C3_commitment_is_hash_of_witness)))
             Samples.id_hash Samples.zeros Samples.ones Samples.delhi_json).
    reflexivity.
Defined.

(** C4. Completeness.  A witness that satisfies the three constraint groups
    (status hash equal to the expected one, latitude in [-900000, 900000]
    and longitude in [-1800000, 1800000], commitment derived by the hash)
    is accepted by witness generation, and the assignment it returns
    satisfies every constraint with the hash of the inputs on the output
    wire.  In the mock prover a matching status hash makes the script write
    its proof and public signals and report the proof as verified. *)
Theorem C4_completeness :
  (forall (Poseidon : list Z -> Z) (raw : Circuit.Inputs),
      Circuit.status_ok (Circuit.read_inputs raw) = true ->
      Circuit.lat_in_range (Circuit.gpsLatitude (Circuit.read_inputs raw)) = true ->
      Circuit.lng_in_range (Circuit.gpsLongitude (Circuit.read_inputs raw)) = true ->
      exists w,
        Circuit.generate_witness Poseidon raw = Ok w
        /\ Circuit.inputs w = Circuit.read_inputs raw
        /\ Circuit.constraints Poseidon w = true
        /\ Circuit.complianceCommitment w
           = Poseidon (Circuit.hasher_inputs (Circuit.read_inputs raw)))
  /\ (forall (sha256 : string -> string) (randomBytes : nat -> string)
             (i : Mock.Input) (fs : gmap string Mock.File),
      Mock.complianceStatusHash i = Mock.expectedComplianceHash i ->
      exists env fs',
        Mock.generate_mock_proof sha256 randomBytes i fs = (Mock.Completed env true, fs')
        /\ Mock.verify sha256 env = true
        /\ fs' !! "build/proof.json"%string = Some (Mock.ProofJson (Mock.mockProof env))
        /\ fs' !! "build/public.json"%string
           = Some (Mock.PublicJson [Mock.commitment env; Mock.expectedComplianceHash i])).
Proof.
  split.
  - intros Poseidon raw Hst Hlat Hlng.
    destruct (CircuitFacts.read_inputs_elem raw) as (Ha & Hla & Hlo & Hb).
    assert (Circuit.accepted (Circuit.read_inputs raw) = true) as Hacc
      by (apply RangeFacts.in_range_accepted; assumption).
    exists (Circuit.compute Poseidon (Circuit.read_inputs raw)).
    split; [apply CircuitFacts.generate_witness_accepted, Hacc |].
    split; [reflexivity |].
    split; [| reflexivity].
    rewrite CircuitFacts.compute_constraints; assumption.
  - intros sha256 randomBytes i fs Heq.
    apply MockFacts.statusMatch_true in Heq.
    eexists _, _. split; [apply MockFacts.match_completes, Heq |].
    split; [apply MockFacts.verify_script_env |].
    split.
    + rewrite lookup_insert_ne by discriminate.
      rewrite lookup_insert_ne by discriminate.
      apply lookup_insert_eq.
    + rewrite lookup_insert_ne by discriminate.
      apply lookup_insert_eq.
Qed.

Lemma C4_completeness_witness :
  (exists w,
      Circuit.generate_witness Samples.sum_hash Samples.delhi = Ok w
      /\ Circuit.inputs w = Circuit.read_inputs Samples.delhi
      /\ Circuit.constraints Samples.sum_hash w = true
      /\ Circuit.complianceCommitment w
         = Samples.sum_hash (Circuit.hasher_inputs (Circuit.read_inputs Samples.delhi)))
  /\ (exists env fs',
      Mock.generate_mock_proof Samples.id_hash Samples.zeros Samples.delhi_json ∅
        = (Mock.Completed env true, fs')
      /\ Mock.verify Samples.id_hash env = true
      /\ fs' !! "build/proof.json"%string = Some (Mock.ProofJson (Mock.mockProof env))
      /\ fs' !! "build/public.json"%string
         = Some (Mock.PublicJson [Mock.commitment env;
                                  Mock.expectedComplianceHash Samples.delhi_json])).
Proof.
  split.
  - apply (proj1 C4_completeness Samples.sum_hash Samples.delhi); reflexivity.
  - apply (proj2 C4_completeness Samples.id_hash Samples.zeros Samples.delhi_json ∅).
    reflexivity.
Defined.



(** C6. Replay once-only.  Per commitment the ledger admits one transition,
    from Unseen to Redeemed: a [redeem] call leaves every commitment's state
    as it was or takes the redeemed commitment from Unseen to Redeemed; a
    Redeemed commitment stays Redeemed through any further calls; and on an
    Unseen commitment the first [redeem] returns Ok while every later one,
    whatever other redemptions happen in between, returns AlreadyRedeemed. *)
Theorem C6_replay_once_only :
  forall `{Countable Commitment} (l : gset Commitment) (c : Commitment),
    (forall c0 c', Ledger.state_of (snd (Ledger.redeem c0 l)) c' = Ledger.state_of l c'
                   \/ (c' = c0
                       /\ Ledger.step (Ledger.state_of l c')
                            (Ledger.state_of (snd (Ledger.redeem c0 l)) c')))
    /\ (forall s s', Ledger.step s s' <-> s = Ledger.Unseen /\ s' = Ledger.Redeemed)
    /\ (Ledger.state_of l c = Ledger.Redeemed ->
        forall cs, Ledger.state_of (snd (Ledger.redeem_all cs l)) c = Ledger.Redeemed)
    /\ (Ledger.state_of l c = Ledger.Unseen ->
        fst (Ledger.redeem c l) = Ledger.Ok
        /\ Ledger.state_of (snd (Ledger.redeem c l)) c = Ledger.Redeemed
        /\ forall cs,
             fst (Ledger.redeem c (snd (Ledger.redeem_all cs (snd (Ledger.redeem c l)))))
             = Ledger.Error Ledger.AlreadyRedeemed).
Proof.
  intros Commitment Heq Hcount l c.
  split; [intros c0 c'; apply LedgerFacts.redeem_step |].
  split.
  { intros s s'. split; [intros []; done | intros [-> ->]; constructor]. }
  split.
  - intros Hred cs. apply LedgerFacts.state_of_Redeemed in Hred.
    apply LedgerFacts.state_of_Redeemed.
    pose proof (LedgerFacts.redeem_all_grows cs l). set_solver.
  - intros Hun. apply LedgerFacts.state_of_Unseen in Hun.
    rewrite (LedgerFacts.redeem_unseen c l Hun). cbn [fst snd].
    split; [done |].
    split; [apply LedgerFacts.state_of_Redeemed; set_solver |].
    intros cs. rewrite LedgerFacts.redeem_redeemed; [done |].
    pose proof (LedgerFacts.redeem_all_grows cs ({[c]} ∪ l)). set_solver.
Qed.

Lemma C6_replay_once_only_witness :
  let l : gset Z := {[ 11 ]} in
  Ledger.state_of (snd (Ledger.redeem_all [22; 7; 11] l)) 11 = Ledger.Redeemed
  /\ fst (Ledger.redeem 7 l) = Ledger.Ok
  /\ Ledger.state_of (snd (Ledger.redeem 7 l)) 7 = Ledger.Redeemed
  /\ fst (Ledger.redeem 7 (snd (Ledger.redeem_all [22; 7; 33] (snd (Ledger.redeem 7 l)))))
     = Ledger.Error Ledger.AlreadyRedeemed.
Proof.
  intros l. split.
  - apply (proj1 (proj2 (proj2 (C6_replay_once_only l 11)))); vm_compute; reflexivity.
  - destruct (proj2 (proj2 (proj2 (C6_replay_once_only l 7)))) as (H1 & H2 & H3);
      [vm_compute; reflexivity |].
    split; [exact H1 |]. split; [exact H2 |]. exact (H3 [22; 7; 33]).
Defined.




(** C8. What the verifier is given.  The circuit has one output signal, the
    commitment; its public signals are that output followed by the public
    input expectedComplianceHash, and none of the five private input
    signals is among them.  For every assignment that satisfies the
    constraints the transmitted values are the hash of the private inputs
    and the expected status hash, and the private status hash equals the
    latter: its value is the one private value the verifier sees.  The mock
    prover transmits the same two values. *)
Theorem C8_public_signals :
  Circuit.output_signals = [Circuit.s_complianceCommitment]
  /\ Circuit.public_signals
     = [Circuit.s_complianceCommitment; Circuit.s_expectedComplianceHash]
  /\ Circuit.private_signals
     = [Circuit.s_complianceStatusHash; Circuit.s_gpsLatitude; Circuit.s_gpsLongitude;
        Circuit.s_farmerWalletHash; Circuit.s_nonce]
  /\ (forall s, In s Circuit.private_signals -> ~ In s Circuit.public_signals)
  /\ (forall (Poseidon : list Z -> Z) (raw : Circuit.Inputs) (w : Circuit.Signals),
      Circuit.inputs w = Circuit.read_inputs raw ->
      Circuit.constraints Poseidon w = true ->
      Circuit.publicSignals w
      = [Poseidon (Circuit.hasher_inputs (Circuit.inputs w));
         Circuit.expectedComplianceHash (Circuit.inputs w)]
      /\ Circuit.complianceStatusHash (Circuit.inputs w)
         = Circuit.expectedComplianceHash (Circuit.inputs w))
  /\ (forall (sha256 : string -> string) (randomBytes : nat -> string) (i : Mock.Input),
      Mock.publicSignals (Mock.script_env sha256 randomBytes i)
      = [sha256 (Mock.make_commitmentInput i); Mock.expectedComplianceHash i]).
Proof.
  do 3 (split; [reflexivity |]).
  split.
  { intros s Hpriv Hpub. cbn in Hpriv, Hpub.
    destruct Hpub as [<- | [<- | []]];
      repeat (destruct Hpriv as [Hpriv | Hpriv]; [discriminate Hpriv |]);
      exact Hpriv. }
  split.
  - intros Poseidon raw w Hin Hc. split.
    + unfold Circuit.publicSignals. cbn.
      rewrite (CircuitFacts.constraints_commitment Poseidon w Hc). reflexivity.
    + destruct (CircuitFacts.read_inputs_elem raw) as (Ha & _ & _ & Hb).
      rewrite <- Hin in Ha, Hb.
      apply (CircuitFacts.constraints_status Poseidon w Ha Hb Hc).
  - intros sha256 randomBytes i. reflexivity.
Qed.

Lemma C8_public_signals_witness :
  let w := Circuit.compute Samples.sum_hash (Circuit.read_inputs Samples.delhi) in
  Circuit.publicSignals w
  = [Samples.sum_hash (Circuit.hasher_inputs (Circuit.inputs w));
     Circuit.expectedComplianceHash (Circuit.inputs w)]
  /\ Circuit.complianceStatusHash (Circuit.inputs w)
     = Circuit.expectedComplianceHash (Circuit.inputs w).
Proof.
  intros w.
  apply (proj1 (proj2 (proj2 (proj2 (proj2 C8_public_signals))))
           Samples.sum_hash Samples.delhi w); reflexivity.
Defined.

(** The claim that no private witness value appears among the public
    signals fails for the status hash: in the accepted run on the sample
    input the value of the private signal complianceStatusHash is the second
    public signal. *)
Lemma C8_counterexample :
  let w := Circuit.compute Samples.sum_hash (Circuit.read_inputs Samples.delhi) in
  Circuit.generate_witness Samples.sum_hash Samples.delhi = Ok w
  /\ In Circuit.s_complianceStatusHash Circuit.private_signals
  /\ Circuit.signal_value w Circuit.s_complianceStatusHash = 1234567
  /\ Circuit.publicSignals w = [9947159; 1234567]
  /\ In (Circuit.signal_value w Circuit.s_complianceStatusHash) (Circuit.publicSignals w).
Proof.
  cbv zeta. split; [reflexivity |]. split; [left; reflexivity |].
  split; [reflexivity |]. split; [reflexivity |]. right. left. reflexivity.
Qed.

(** C9. In the mock backend the verification outcome does not depend on
    the proof object or on the verification key: two runs on the same input
    with different random bytes report the same result, the verification
    step gives the same answer when the proof and the key are replaced, and
    a run that reaches the verification step always reports VALID. *)
Theorem C9_mock_verdict_ignores_proof_and_key :
  forall (sha256 : string -> string) (rnd1 rnd2 : nat -> string)
         (i : Mock.Input) (fs1 fs2 : gmap string Mock.File),
    Mock.reported (fst (Mock.generate_mock_proof sha256 rnd1 i fs1))
    = Mock.reported (fst (Mock.generate_mock_proof sha256 rnd2 i fs2))
    /\ Mock.reported (fst (Mock.generate_mock_proof sha256 rnd1 i fs1))
       = (if Mock.statusMatch i then Some Mock.VALID else None)
    /\ (forall e proof vk,
        Mock.verify sha256 (Mock.with_mockProof proof (Mock.with_verificationKey vk e))
        = Mock.verify sha256 e).
Proof.
  intros sha256 rnd1 rnd2 i fs1 fs2.
  destruct (Mock.statusMatch i) eqn:Hs.
  - rewrite !MockFacts.match_completes by exact Hs.
    repeat split; reflexivity.
  - rewrite !MockFacts.mismatch_exits by exact Hs.
    repeat split; reflexivity.
Qed.

(** C10. When the call to the analysis backend fails (the fetch rejects, or
    reading the response body throws), the submission handler sets the
    displayed result to the hard-coded mock result, whose status is
    COMPLIANT with confidence 0.94, and clears the submitting flag: every
    error path of the submission ends in a compliant verdict, none in an
    error state. *)
Theorem C10_error_falls_back_to_compliant :
  forall (now : string) (use_mock : bool) (backend : Frontend.Backend)
         (st : Frontend.State) (err : Frontend.Thrown),
    Frontend.try_body now use_mock backend (Frontend.setIsSubmitting true st) = inl err ->
    Frontend.handleSubmit now use_mock backend st
    = {| Frontend.isSubmitting := false;
         Frontend.result := Some (Frontend.MOCK_COMPLIANCE_RESULT now) |}
    /\ Frontend.status (Frontend.MOCK_COMPLIANCE_RESULT now) = Some Frontend.COMPLIANT
    /\ Frontend.confidence (Frontend.MOCK_COMPLIANCE_RESULT now) = 0.94%Q.
Proof.
  intros now use_mock backend st err Hthrow.
  unfold Frontend.handleSubmit. rewrite Hthrow.
  split; [reflexivity |]. split; reflexivity.
Qed.

Lemma C10_error_falls_back_to_compliant_witness :
  let st := {| Frontend.isSubmitting := false; Frontend.result := None |} in
  let now := "2024-01-01T00:00:00.000Z"%string in
  Frontend.handleSubmit now false Frontend.FetchRejects st
  = {| Frontend.isSubmitting := false;
       Frontend.result := Some (Frontend.MOCK_COMPLIANCE_RESULT now) |}
  /\ Frontend.status (Frontend.MOCK_COMPLIANCE_RESULT now) = Some Frontend.COMPLIANT
  /\ Frontend.confidence (Frontend.MOCK_COMPLIANCE_RESULT now) = 0.94%Q.
Proof.
  intros st now.
  apply (C10_error_falls_back_to_compliant now false Frontend.FetchRejects st
           Frontend.Exception).
  reflexivity.
Defined.

(** * Further properties of the code *)

(** ** The circuit beyond the claims *)
Module CircuitMore.
Import Circomlib Circuit.

(** A list of bits is the decomposition of its own value. *)
Lemma bits_unique n : forall out,
  Forall SoundnessFacts.bit out -> length out = n ->
  Num2Bits_out n (bits_value out) = out.
Proof.
  induction n as [| n IH]; intros out Hbits Hlen.
  - destruct out; [reflexivity | discriminate Hlen].
  - destruct out as [| b rest]; [discriminate Hlen |].
    inversion Hbits as [| ? ? Hb Hrest]; subst.
    rewrite Num2BitsFacts.out_S. cbn [bits_value].
    replace (b + 2 * bits_value rest) with (b + bits_value rest * 2) by ring.
    rewrite Z_mod_plus_full, Z.div_add by lia.
    assert (b mod 2 = b /\ b / 2 = 0) as [-> ->]
      by (destruct Hb as [-> | ->]; split; reflexivity).
    rewrite Z.add_0_l.
    f_equal. apply IH; [exact Hrest | cbn in Hlen; lia].
Qed.

Lemma reduce_elems out :
  Forall F.elem out -> SoundnessFacts.reduce out = out.
Proof.
  induction 1 as [| b rest Hb _ IH]; [reflexivity |].
  cbn [SoundnessFacts.reduce map]. fold (SoundnessFacts.reduce rest).
  rewrite IH. f_equal. apply Z.mod_small, Hb.
Qed.

(** The digits the calculator computes are field elements. *)
Lemma out_elems n : forall x, Forall F.elem (Num2Bits_out n x).
Proof.
  induction n as [| n IH]; intros x; [constructor |].
  rewrite Num2BitsFacts.out_S. constructor; [| apply IH].
  pose proof (Z.mod_pos_bound x 2 ltac:(lia)).
  pose proof FFacts.p_gt_2_253. unfold F.elem. lia.
Qed.

(** Field-valued digits that satisfy [Num2Bits(n)] are the digits the
    calculator computes. *)
Lemma Num2Bits_unique n x out :
  (n <= 253)%nat -> F.elem x -> Forall F.elem out ->
  Num2Bits_constraints n x out = true ->
  out = Num2Bits_out n x.
Proof.
  intros Hn Hx Hout H.
  destruct (SoundnessFacts.Num2Bits_sound n x out Hn Hx H) as (Hlen & Hbits & Hval).
  rewrite (reduce_elems out Hout) in Hbits, Hval.
  rewrite Hval. symmetry. apply bits_unique; assumption.
Qed.

Lemma LessThan_unique n s :
  (n <= 252)%nat -> Forall F.elem (n2b_out s) ->
  LessThan_constraints n s = true ->
  s = LessThan_witness n (lt_in0 s) (lt_in1 s).
Proof.
  intros Hn Hout H. unfold LessThan_constraints in H.
  apply andb_prop in H as [H Ho]. apply andb_prop in H as [Hin Hbits].
  apply Z.eqb_eq in Hin, Ho.
  destruct s as [in0 in1 x bits o].
  cbn [lt_in0 lt_in1 n2b_in n2b_out lt_out] in *. subst x.
  assert (bits = Num2Bits_out (S n) (LessThan_n2b_in n in0 in1)) as Hb.
  { apply Num2Bits_unique; [lia | apply FFacts.sub_elem | exact Hout | exact Hbits]. }
  unfold LessThan_witness. cbn zeta. rewrite <- Hb, <- Ho. reflexivity.
Qed.

(** The output of the computed comparator, once its bits exist. *)
Lemma LessThan_witness_out n in0 in1 :
  let x := LessThan_n2b_in n in0 in1 in
  x < 2 ^ Z.of_nat (S n) ->
  (lt_out (LessThan_witness n in0 in1) =? 1) = (x <? 2 ^ Z.of_nat n).
Proof.
  intros x Hx. cbn [LessThan_witness lt_out]. fold x.
  unfold LessThan_out. rewrite Num2BitsFacts.out_nth.
  assert (0 <= x) as Hx0 by apply FFacts.sub_elem.
  assert (0 < 2 ^ Z.of_nat n) as Hpos by (apply Z.pow_pos_nonneg; lia).
  rewrite Nat2Z.inj_succ, Z.pow_succ_r in Hx by lia.
  destruct (Z.ltb_spec x (2 ^ Z.of_nat n)) as [Hlt | Hge].
  - rewrite Z.div_small by lia. reflexivity.
  - assert (x / 2 ^ Z.of_nat n = 1) as ->.
    { symmetry. apply (Z.div_unique x (2 ^ Z.of_nat n) 1 (x - 2 ^ Z.of_nat n)); lia. }
    reflexivity.
Qed.

Section Checks.
Variable Poseidon : list Z -> Z.
Variable i : Inputs.

(** The four checks after the status gate, on the computed assignment. *)
Lemma lat_bits_check :
  Num2Bits_constraints 22 (n2b_in (latCheck (compute Poseidon i)))
    (n2b_out (latCheck (compute Poseidon i)))
  = (lat_n2b_in (gpsLatitude i) <? 2 ^ 22).
Proof.
  apply (Num2BitsFacts.witness_constraints 22); [lia | apply FFacts.sub_elem].
Qed.

Lemma lat_out_check :
  lat_n2b_in (gpsLatitude i) < 2 ^ 22 ->
  (lt_out (latCheck (compute Poseidon i)) =? 1)
  = (lat_n2b_in (gpsLatitude i) <? 2 ^ 21).
Proof. apply (LessThan_witness_out 21). Qed.

Lemma lng_bits_check :
  Num2Bits_constraints 23 (n2b_in (lngCheck (compute Poseidon i)))
    (n2b_out (lngCheck (compute Poseidon i)))
  = (lng_n2b_in (gpsLongitude i) <? 2 ^ 23).
Proof.
  apply (Num2BitsFacts.witness_constraints 23); [lia | apply FFacts.sub_elem].
Qed.

Lemma lng_out_check :
  lng_n2b_in (gpsLongitude i) < 2 ^ 23 ->
  (lt_out (lngCheck (compute Poseidon i)) =? 1)
  = (lng_n2b_in (gpsLongitude i) <? 2 ^ 22).
Proof. apply (LessThan_witness_out 22). Qed.

End Checks.

End CircuitMore.

(** X1. The inputs on which the circuit is satisfiable, for coordinates
    given as signed integers: the status hashes agree in the field, the
    latitude lies in [-1197151, 900000] and the longitude in
    [-2394303, 1800000].  The upper bounds are the documented ones; the
    lower bounds are [bound + 1 - 2^21] and [bound + 1 - 2^22]. *)
Theorem circuit_satisfiable_window :
  forall (Poseidon : list Z -> Z) (raw : Circuit.Inputs),
    - (F.p / 2) <= Circuit.gpsLatitude raw <= F.p / 2 ->
    - (F.p / 2) <= Circuit.gpsLongitude raw <= F.p / 2 ->
    (Circuit.satisfiable Poseidon (Circuit.read_inputs raw)
     <-> F.of_Z (Circuit.complianceStatusHash raw)
           = F.of_Z (Circuit.expectedComplianceHash raw)
         /\ -1197151 <= Circuit.gpsLatitude raw <= 900000
         /\ -2394303 <= Circuit.gpsLongitude raw <= 1800000).
Proof.
  intros Poseidon raw Hlat Hlng.
  pose proof (RangeFacts.satisfiable_window Poseidon raw) as H. cbv zeta in H.
  cbn [Circuit.read_inputs Circuit.complianceStatusHash Circuit.gpsLatitude
       Circuit.gpsLongitude Circuit.expectedComplianceHash] in H.
  rewrite !RangeFacts.to_signed_of_Z in H by assumption. exact H.
Qed.

Lemma circuit_satisfiable_window_witness :
  Circuit.satisfiable Samples.sum_hash (Circuit.read_inputs Samples.delhi)
  <-> F.of_Z 1234567 = F.of_Z 1234567
      /\ -1197151 <= 286139 <= 900000
      /\ -2394303 <= 772090 <= 1800000.
Proof.
  apply (circuit_satisfiable_window Samples.sum_hash Samples.delhi);
    vm_compute; split; discriminate.
Defined.

(** X2. Witness generation and the constraint system agree: the calculator
    returns an assignment exactly when some assignment satisfies the
    constraints, and what it returns satisfies them. *)
Theorem witness_generation_decides_satisfiability :
  forall (Poseidon : list Z -> Z) (raw : Circuit.Inputs),
    ((exists w, Circuit.generate_witness Poseidon raw = Ok w)
     <-> Circuit.satisfiable Poseidon (Circuit.read_inputs raw))
    /\ (forall w, Circuit.generate_witness Poseidon raw = Ok w ->
                  Circuit.inputs w = Circuit.read_inputs raw
                  /\ Circuit.constraints Poseidon w = true).
Proof.
  intros Poseidon raw. split.
  - rewrite CircuitFacts.generate_witness_ok_iff, CircuitFacts.satisfiable_iff.
    reflexivity.
  - intros w Hw.
    destruct (CircuitFacts.generate_witness_sound Poseidon raw w Hw) as [-> Hc].
    split; [reflexivity | exact Hc].
Qed.

(** X3. The circuit leaves no signal free: an assignment over field
    elements that satisfies the constraints is the one the calculator
    computes from the inputs.  In particular the bits hinted with [<--]
    inside the comparators cannot be chosen otherwise. *)
Theorem satisfying_assignment_unique :
  forall (Poseidon : list Z -> Z) (raw : Circuit.Inputs) (w : Circuit.Signals),
    Circuit.inputs w = Circuit.read_inputs raw ->
    Forall F.elem (Circomlib.n2b_out (Circuit.latCheck w)) ->
    Forall F.elem (Circomlib.n2b_out (Circuit.lngCheck w)) ->
    Circuit.constraints Poseidon w = true ->
    w = Circuit.compute Poseidon (Circuit.read_inputs raw).
Proof.
  intros Poseidon raw w Hin Hlatb Hlngb H.
  unfold Circuit.constraints in H.
  apply andb_prop in H as [H Hcommit]. apply andb_prop in H as [H Hhash].
  apply andb_prop in H as [H Hlngout]. apply andb_prop in H as [H Hlng].
  apply andb_prop in H as [H Hlng1]. apply andb_prop in H as [H Hlng0].
  apply andb_prop in H as [H Hlatout]. apply andb_prop in H as [H Hlat].
  apply andb_prop in H as [H Hlat1]. apply andb_prop in H as [H Hlat0].
  apply andb_prop in H as [H HsLng]. apply andb_prop in H as [H HsLat].
  apply andb_prop in H as [Hst _].
  apply Z.eqb_eq in Hcommit, Hhash, Hlng1, Hlng0, Hlat1, Hlat0, HsLng, HsLat, Hst.
  pose proof (CircuitMore.LessThan_unique 21 _ ltac:(lia) Hlatb Hlat) as Elat.
  pose proof (CircuitMore.LessThan_unique 22 _ ltac:(lia) Hlngb Hlng) as Elng.
  rewrite Hlat0, Hlat1, HsLat in Elat. rewrite Hlng0, Hlng1, HsLng in Elng.
  destruct w as [i sc sLat sLng lat lng h c].
  cbn [Circuit.inputs Circuit.statusCheck Circuit.shiftedLat Circuit.shiftedLng
       Circuit.latCheck Circuit.lngCheck Circuit.hasher_out
       Circuit.complianceCommitment] in *.
  subst i.
  unfold Circuit.compute. cbn zeta.
  rewrite Elat, Elng, Hcommit, Hhash, Hst, HsLat, HsLng. reflexivity.
Qed.

Lemma satisfying_assignment_unique_witness :
  Circuit.compute Samples.sum_hash (Circuit.read_inputs Samples.delhi)
  = Circuit.compute Samples.sum_hash (Circuit.read_inputs Samples.delhi).
Proof.
  apply (satisfying_assignment_unique Samples.sum_hash Samples.delhi).
  - reflexivity.
  - apply CircuitMore.out_elems.
  - apply CircuitMore.out_elems.
  - vm_compute. reflexivity.
Defined.

(** X4. The error of witness generation names the first check that fails,
    in program order: the status gate first, then for each coordinate the
    bit decomposition (the shifted sum does not fit the comparator's
    [n + 1] bits) and only then the comparison itself.  The sums are
    [latitude + 1197151] and [longitude + 2394303] reduced in the field. *)
Theorem witness_generation_first_violation :
  forall (Poseidon : list Z -> Z) (raw : Circuit.Inputs),
    let a := (Circuit.gpsLatitude raw + 1197151) mod F.p in
    let o := (Circuit.gpsLongitude raw + 2394303) mod F.p in
    Circuit.generate_witness Poseidon raw
    = if negb (F.of_Z (Circuit.complianceStatusHash raw)
               =? F.of_Z (Circuit.expectedComplianceHash raw))
      then Err (ConstraintViolation StatusCheck)
      else if 2 ^ 22 <=? a then Err (ConstraintViolation LatCheckBits)
      else if 2 ^ 21 <=? a then Err (ConstraintViolation LatCheckOut)
      else if 2 ^ 23 <=? o then Err (ConstraintViolation LngCheckBits)
      else if 2 ^ 22 <=? o then Err (ConstraintViolation LngCheckOut)
      else Ok (Circuit.compute Poseidon (Circuit.read_inputs raw)).
Proof.
  intros Poseidon raw a o.
  destruct (CircuitFacts.read_inputs_elem raw) as (Ha & _ & _ & Hb).
  assert (Circuit.lat_n2b_in (Circuit.gpsLatitude (Circuit.read_inputs raw)) = a) as Ea.
  { rewrite CircuitFacts.lat_n2b_in_eq.
    cbn [Circuit.read_inputs Circuit.gpsLatitude]. unfold F.of_Z.
    rewrite Zplus_mod_idemp_l. reflexivity. }
  assert (Circuit.lng_n2b_in (Circuit.gpsLongitude (Circuit.read_inputs raw)) = o) as Eo.
  { rewrite CircuitFacts.lng_n2b_in_eq.
    cbn [Circuit.read_inputs Circuit.gpsLongitude]. unfold F.of_Z.
    rewrite Zplus_mod_idemp_l. reflexivity. }
  unfold Circuit.generate_witness, enforce, bind. cbv zeta.
  rewrite (CircuitFacts.status_gate Poseidon _ Ha Hb). unfold Circuit.status_ok.
  rewrite CircuitMore.lat_bits_check, CircuitMore.lng_bits_check, Ea, Eo.
  cbn [Circuit.read_inputs Circuit.complianceStatusHash Circuit.expectedComplianceHash].
  destruct (F.of_Z (Circuit.complianceStatusHash raw)
            =? F.of_Z (Circuit.expectedComplianceHash raw)); cbn [negb]; [| reflexivity].
  rewrite (Z.leb_antisym a (2 ^ 22)), (Z.leb_antisym a (2 ^ 21)).
  rewrite (Z.leb_antisym o (2 ^ 23)), (Z.leb_antisym o (2 ^ 22)).
  destruct (Z.ltb_spec a (2 ^ 22)) as [Ha22 | Ha22]; cbn [negb]; [| reflexivity].
  rewrite CircuitMore.lat_out_check, Ea by (rewrite Ea; exact Ha22).
  destruct (Z.ltb_spec a (2 ^ 21)) as [Ha21 | Ha21]; cbn [negb]; [| reflexivity].
  destruct (Z.ltb_spec o (2 ^ 23)) as [Ho23 | Ho23]; cbn [negb]; [| reflexivity].
  rewrite CircuitMore.lng_out_check, Eo by (rewrite Eo; exact Ho23).
  destruct (Z.ltb_spec o (2 ^ 22)); reflexivity.
Qed.

(** ** The mock prover beyond the claims *)
Module MockMoreFacts.
Import Mock MockMore.

Lemma append_bar_inj x : forall y r1 r2,
  bar_free x = true -> bar_free y = true ->
  String.append x (String "|" r1) = String.append y (String "|" r2) ->
  x = y /\ r1 = r2.
Proof.
  induction x as [| c x IH]; intros [| d y] r1 r2 Hx Hy H; cbn in H.
  - injection H as ->. split; reflexivity.
  - injection H as Hc _. subst d. cbn in Hy. discriminate Hy.
  - injection H as Hc _. subst c. cbn in Hx. discriminate Hx.
  - injection H as -> H. cbn in Hx, Hy.
    apply andb_prop in Hx as [_ Hx]. apply andb_prop in Hy as [_ Hy].
    destruct (IH y r1 r2 Hx Hy H) as [-> ->]. split; reflexivity.
Qed.

(** The mock prover exits with status 0 exactly when the status hashes
    are the same string. *)
Lemma node_ok_statusMatch sha256 randomBytes i fs :
  MockMore.node_ok (fst (Mock.generate_mock_proof sha256 randomBytes i fs))
  = Mock.statusMatch i.
Proof.
  unfold Mock.generate_mock_proof. destruct (Mock.statusMatch i); cbn [negb].
  - destruct (Mock.gen_mockProof randomBytes 0%nat) as [proof k].
    destruct (Mock.gen_verificationKey randomBytes k) as [vk k'].
    reflexivity.
  - reflexivity.
Qed.

End MockMoreFacts.

(** X5. The mock prover touches three files and nothing else: on a status
    mismatch the file system is left as it was; otherwise build/proof.json,
    build/public.json and build/verification_key.json hold the new proof,
    public signals and key, whatever they held before, and every other path
    keeps its content. *)
Theorem mock_writes_only_its_three_files :
  forall (sha256 : string -> string) (randomBytes : nat -> string)
         (i : Mock.Input) (fs : gmap string Mock.File),
    let fs' := snd (Mock.generate_mock_proof sha256 randomBytes i fs) in
    let e := Mock.script_env sha256 randomBytes i in
    (forall path : string,
        path <> "build/proof.json"%string ->
        path <> "build/public.json"%string ->
        path <> "build/verification_key.json"%string ->
        fs' !! path = fs !! path)
    /\ (if Mock.statusMatch i
        then fs' !! "build/proof.json"%string = Some (Mock.ProofJson (Mock.mockProof e))
             /\ fs' !! "build/public.json"%string
                = Some (Mock.PublicJson (Mock.publicSignals e))
             /\ fs' !! "build/verification_key.json"%string
                = Some (Mock.VerificationKeyJson (Mock.verificationKey e))
        else fs' = fs).
Proof.
  intros sha256 randomBytes i fs fs' e. subst fs' e.
  destruct (Mock.statusMatch i) eqn:Hs.
  - rewrite (MockFacts.match_completes sha256 randomBytes i fs Hs). cbn [snd].
    split.
    + intros path H1 H2 H3.
      rewrite !lookup_insert_ne by congruence. reflexivity.
    + split; [| split].
      * rewrite !lookup_insert_ne by discriminate. apply lookup_insert_eq.
      * rewrite lookup_insert_ne by discriminate. apply lookup_insert_eq.
      * apply lookup_insert_eq.
  - rewrite (MockFacts.mismatch_exits sha256 randomBytes i fs Hs). cbn [snd].
    split; [intros; reflexivity | reflexivity].
Qed.

Lemma mock_writes_only_its_three_files_witness :
  let fs : gmap string Mock.File :=
    {[ "input.json"%string := Mock.PublicJson ["kept"%string] ]} in
  snd (Mock.generate_mock_proof Samples.id_hash Samples.zeros Samples.delhi_json fs)
    !! "input.json"%string
  = fs !! "input.json"%string.
Proof.
  intros fs.
  apply (proj1 (mock_writes_only_its_three_files Samples.id_hash Samples.zeros
                  Samples.delhi_json fs)); discriminate.
Defined.

(** X6. The script draws 28 random strings: the proof is built from draws
    0 to 7 and the verification key from draws 8 to 27.  Two random sources
    that agree on the first eight draws give the same proof, and two that
    agree on the next twenty give the same key: the proof and the key share
    no randomness. *)
Theorem mock_random_draws :
  forall (sha256 : string -> string) (rnd1 rnd2 : nat -> string) (i : Mock.Input),
    snd (Mock.gen_mockProof rnd1 0%nat) = 8%nat
    /\ snd (Mock.gen_verificationKey rnd1 8%nat) = 28%nat
    /\ ((forall k, (k < 8)%nat -> rnd1 k = rnd2 k) ->
        Mock.mockProof (Mock.script_env sha256 rnd1 i)
        = Mock.mockProof (Mock.script_env sha256 rnd2 i))
    /\ ((forall k, (8 <= k < 28)%nat -> rnd1 k = rnd2 k) ->
        Mock.verificationKey (Mock.script_env sha256 rnd1 i)
        = Mock.verificationKey (Mock.script_env sha256 rnd2 i)).
Proof.
  intros sha256 rnd1 rnd2 i. split; [reflexivity |]. split; [reflexivity |].
  split; intros H; cbn; rewrite !H by lia; reflexivity.
Qed.

Lemma mock_random_draws_witness :
  Mock.mockProof (Mock.script_env Samples.id_hash Samples.zeros Samples.delhi_json)
  = Mock.mockProof
      (Mock.script_env Samples.id_hash
         (fun k => if (k <? 8)%nat then "00"%string else "11"%string)
         Samples.delhi_json).
Proof.
  apply (proj1 (proj2 (proj2 (mock_random_draws Samples.id_hash Samples.zeros
                                (fun k => if (k <? 8)%nat then "00"%string else "11"%string)
                                Samples.delhi_json)))).
  intros k Hk. unfold Samples.zeros.
  destruct (Nat.ltb_spec k 8); [reflexivity | lia].
Defined.

(** X7. The string hashed into the mock commitment determines the witness
    as long as the first four values hold no bar: two inputs with the same
    [commitmentInput] then agree on all five values.  Without that
    condition distinct witnesses collide, since the values are joined by a
    bar with no escaping. *)
Theorem commitmentInput_determines_witness :
  (forall i1 i2 : Mock.Input,
      MockMore.bar_free (Mock.complianceStatusHash i1) = true ->
      MockMore.bar_free (Mock.gpsLatitude i1) = true ->
      MockMore.bar_free (Mock.gpsLongitude i1) = true ->
      MockMore.bar_free (Mock.farmerWalletHash i1) = true ->
      MockMore.bar_free (Mock.complianceStatusHash i2) = true ->
      MockMore.bar_free (Mock.gpsLatitude i2) = true ->
      MockMore.bar_free (Mock.gpsLongitude i2) = true ->
      MockMore.bar_free (Mock.farmerWalletHash i2) = true ->
      Mock.make_commitmentInput i1 = Mock.make_commitmentInput i2 ->
      Mock.complianceStatusHash i1 = Mock.complianceStatusHash i2
      /\ Mock.gpsLatitude i1 = Mock.gpsLatitude i2
      /\ Mock.gpsLongitude i1 = Mock.gpsLongitude i2
      /\ Mock.farmerWalletHash i1 = Mock.farmerWalletHash i2
      /\ Mock.nonce i1 = Mock.nonce i2)
  /\ (exists i1 i2 : Mock.Input,
      Mock.gpsLatitude i1 <> Mock.gpsLatitude i2
      /\ Mock.statusMatch i1 = true /\ Mock.statusMatch i2 = true
      /\ Mock.make_commitmentInput i1 = Mock.make_commitmentInput i2).
Proof.
  split.
  - intros i1 i2 Ha1 Hb1 Hc1 Hd1 Ha2 Hb2 Hc2 Hd2 H.
    unfold Mock.make_commitmentInput in H. cbn [Mock.join] in H.
    change (String.append "|" ?r) with (String "|" r) in H.
    apply MockMoreFacts.append_bar_inj in H as [E1 H]; [| assumption ..].
    apply MockMoreFacts.append_bar_inj in H as [E2 H]; [| assumption ..].
    apply MockMoreFacts.append_bar_inj in H as [E3 H]; [| assumption ..].
    apply MockMoreFacts.append_bar_inj in H as [E4 H]; [| assumption ..].
    repeat split; assumption.
  - exists {| Mock.complianceStatusHash := "7"; Mock.gpsLatitude := "1|2";
              Mock.gpsLongitude := "3"; Mock.farmerWalletHash := "4";
              Mock.nonce := "5"; Mock.expectedComplianceHash := "7" |},
           {| Mock.complianceStatusHash := "7"; Mock.gpsLatitude := "1";
              Mock.gpsLongitude := "2|3"; Mock.farmerWalletHash := "4";
              Mock.nonce := "5"; Mock.expectedComplianceHash := "7" |}.
    split; [discriminate |]. repeat split; reflexivity.
Qed.

Lemma commitmentInput_determines_witness_witness :
  Mock.complianceStatusHash Samples.delhi_json = Mock.complianceStatusHash Samples.delhi_json
  /\ Mock.gpsLatitude Samples.delhi_json = Mock.gpsLatitude Samples.delhi_json
  /\ Mock.gpsLongitude Samples.delhi_json = Mock.gpsLongitude Samples.delhi_json
  /\ Mock.farmerWalletHash Samples.delhi_json = Mock.farmerWalletHash Samples.delhi_json
  /\ Mock.nonce Samples.delhi_json = Mock.nonce Samples.delhi_json.
Proof.
  apply (proj1 commitmentInput_determines_witness Samples.delhi_json Samples.delhi_json);
    reflexivity.
Defined.

(** ** The pipeline script *)
Module PipelineFacts.
Import Pipeline.

Lemma all_ok_app h l c :
  all_ok h (l ++ [c]) = all_ok h l && (Cmd_eqb c NpmInit || exit_ok h c).
Proof.
  unfold all_ok. rewrite forallb_app. cbn. now rewrite andb_true_r.
Qed.

Lemma skip_stops_well h : stops_well h skip.
Proof. intros log H. exact H. Qed.

Lemma echo_stops_well h b : stops_well h (echo b).
Proof. intros log H. exact H. Qed.

Lemma run_stops_well h c : stops_well h (run h c).
Proof.
  intros log H. unfold run. destruct (exit_ok h c) eqn:E.
  - unfold record. cbn [ran]. rewrite all_ok_app, H, E. now rewrite orb_true_r.
  - split; [exact E |]. exists (ran log). now split.
Qed.

Lemma run_or_true_NpmInit_stops_well h : stops_well h (run_or_true NpmInit).
Proof.
  intros log H. unfold run_or_true, record. cbn [ran].
  now rewrite all_ok_app, H.
Qed.

Lemma then_stops_well h a b :
  stops_well h a -> stops_well h b -> stops_well h (then_ a b).
Proof.
  intros Ha Hb log H. unfold then_. specialize (Ha log H).
  destruct (a log) as [[failed |] log'].
  - exact Ha.
  - apply Hb, Ha.
Qed.

Lemma sequence_stops_well h steps :
  Forall (stops_well h) steps -> stops_well h (sequence steps).
Proof.
  induction 1 as [| s rest Hs _ IH]; cbn.
  - apply skip_stops_well.
  - now apply then_stops_well.
Qed.

Lemma when_stops_well h b s : stops_well h s -> stops_well h (when b s).
Proof. destruct b; [trivial | intros _; apply skip_stops_well]. Qed.

Lemma setup_and_prove_stops_well h : stops_well h (setup_and_prove h).
Proof.
  unfold setup_and_prove.
  apply sequence_stops_well.
  repeat first
    [ apply List.Forall_cons | apply List.Forall_nil
    | apply when_stops_well | apply sequence_stops_well
    | apply run_stops_well | apply run_or_true_NpmInit_stops_well
    | apply echo_stops_well
    | match goal with |- stops_well _ (if ?b then _ else _) => destruct b end ].
Qed.

(** Case analysis over a run: split on what the script tests, one command
    after the other in script order, closing each finished branch at
    once. *)
Ltac start_run h :=
  unfold execute, setup_and_prove;
  destruct (snarkjs_found h), (circom_found h), (circomlib_dir h);
  lazy beta iota zeta delta
    [sequence then_ when run run_or_true echo skip record
     negb ran printed app fst snd orb].

Ltac split_on h c finish :=
  try match goal with
      | |- context [if exit_ok h c then _ else _] =>
          let E := fresh "E" in
          destruct (exit_ok h c) eqn:E;
          lazy beta iota zeta delta [negb ran printed app fst snd orb]; [| solve [finish]]
      end.

Ltac run_cases h finish :=
  split_on h NpmInstallSnarkjs finish;
  split_on h NpmInstallCircomlib finish;
  split_on h MkdirBuild finish;
  split_on h CircomCompile finish;
  split_on h R1csInfo finish;
  split_on h PtauNew finish;
  split_on h PtauContribute finish;
  split_on h PtauPreparePhase2 finish;
  split_on h Groth16Setup finish;
  split_on h ZkeyContribute finish;
  split_on h ExportVerificationKey finish;
  split_on h GenerateWitness finish;
  split_on h Groth16Prove finish;
  split_on h Groth16Verify finish;
  split_on h ExportSolidityVerifier finish;
  split_on h NodeGenerateMockProof finish;
  finish.

End PipelineFacts.

(** X8. [set -e]: the script stops at the first command that fails.  If it
    stops, the command that failed is the last one it ran and every command
    before it had succeeded; if it runs to the end, every command it ran
    succeeded.  The one exception is [npm init], whose status is discarded
    by [|| true]. *)
Theorem script_stops_at_first_failure :
  forall h : Pipeline.Host,
    match Pipeline.execute h with
    | (None, log) => Pipeline.all_ok h (Pipeline.ran log) = true
    | (Some failed, log) =>
        Pipeline.exit_ok h failed = false
        /\ Pipeline.ran log = removelast (Pipeline.ran log) ++ [failed]
        /\ Pipeline.all_ok h (removelast (Pipeline.ran log)) = true
    end.
Proof.
  intros h. unfold Pipeline.execute.
  pose proof (PipelineFacts.setup_and_prove_stops_well h
                {| Pipeline.ran := []; Pipeline.printed := [] |} eq_refl) as H.
  destruct (Pipeline.setup_and_prove h _) as [[failed |] log]; [| exact H].
  destruct H as [E [before [-> Hb]]].
  rewrite removelast_last. auto.
Qed.

(** X9. The two paths never mix.  Without circom none of the circom and
    snarkjs steps runs, with circom the mock prover never runs; and the
    closing banner of a path is printed only on that path, at most once. *)
Theorem script_paths_exclusive :
  forall h : Pipeline.Host,
    let log := snd (Pipeline.execute h) in
    (if Pipeline.circom_found h
     then Pipeline.mem Pipeline.NodeGenerateMockProof (Pipeline.ran log) = false
          /\ ~ In Pipeline.MockProofVerified (Pipeline.printed log)
     else forallb (fun c => negb (Pipeline.mem c (Pipeline.ran log)))
            Pipeline.proving_steps = true
          /\ ~ In Pipeline.ProofVerified (Pipeline.printed log))
    /\ (length (Pipeline.printed log) <= 1)%nat.
Proof.
  intros h. cbv zeta. PipelineFacts.start_run h;
    PipelineFacts.run_cases h
      ltac:(cbn; repeat split;
            solve [reflexivity | lia | intros [H | H]; [discriminate H | exact H]
                  | intros H; exact H]).
Qed.

(** X10. The banner "ZK-SNARK proof verified successfully" is printed
    exactly when circom is present and every step before it succeeded:
    the installations that were needed, [mkdir], compilation, the whole
    setup, witness generation, proving and verification.  It is printed
    before the Solidity verifier is exported, so a run that fails at that
    last step has already announced success. *)
Theorem proof_verified_banner :
  forall h : Pipeline.Host,
    (In Pipeline.ProofVerified (Pipeline.printed (snd (Pipeline.execute h)))
     <-> Pipeline.circom_found h = true
         /\ (Pipeline.snarkjs_found h || Pipeline.exit_ok h Pipeline.NpmInstallSnarkjs) = true
         /\ (Pipeline.circomlib_dir h || Pipeline.exit_ok h Pipeline.NpmInstallCircomlib) = true
         /\ Pipeline.exit_ok h Pipeline.MkdirBuild = true
         /\ forallb (Pipeline.exit_ok h)
              [Pipeline.CircomCompile; Pipeline.R1csInfo; Pipeline.PtauNew;
               Pipeline.PtauContribute; Pipeline.PtauPreparePhase2;
               Pipeline.Groth16Setup; Pipeline.ZkeyContribute;
               Pipeline.ExportVerificationKey; Pipeline.GenerateWitness;
               Pipeline.Groth16Prove; Pipeline.Groth16Verify] = true)
    /\ (fst (Pipeline.execute h) = Some Pipeline.ExportSolidityVerifier ->
        In Pipeline.ProofVerified (Pipeline.printed (snd (Pipeline.execute h)))).
Proof.
  intros h. PipelineFacts.start_run h;
    PipelineFacts.run_cases h
      ltac:(cbn [forallb andb In];
            repeat match goal with E : Pipeline.exit_ok _ _ = _ |- _ => rewrite ?E; clear E end;
            cbn [andb orb];
            split; [split; [intros H; solve [destruct H | destruct H as [H | []]; discriminate H | repeat split; reflexivity]
                          | intros H; decompose [and] H; try discriminate; left; reflexivity]
                   | intros H; try discriminate H; left; reflexivity]).
Qed.

(** X11. The mock path end to end.  On a machine without circom, where
    [node generate_mock_proof.js] exits as the script modelled above does,
    the banner "Mock ZK-SNARK proof generated and verified" is printed
    exactly when the installations and [mkdir] succeeded and the two
    status hashes of input.json are the same string; the run then ends
    without a failure.  Neither the coordinates nor the verification step
    of the mock prover can keep the banner from being printed. *)
Theorem mock_banner_iff_status_match :
  forall (sha256 : string -> string) (randomBytes : nat -> string)
         (h : Pipeline.Host) (i : Mock.Input) (fs : gmap string Mock.File),
    Pipeline.circom_found h = false ->
    Pipeline.exit_ok h Pipeline.NodeGenerateMockProof
    = MockMore.node_ok (fst (Mock.generate_mock_proof sha256 randomBytes i fs)) ->
    (In Pipeline.MockProofVerified (Pipeline.printed (snd (Pipeline.execute h)))
     <-> (Pipeline.snarkjs_found h || Pipeline.exit_ok h Pipeline.NpmInstallSnarkjs) = true
         /\ (Pipeline.circomlib_dir h || Pipeline.exit_ok h Pipeline.NpmInstallCircomlib) = true
         /\ Pipeline.exit_ok h Pipeline.MkdirBuild = true
         /\ Mock.statusMatch i = true)
    /\ (In Pipeline.MockProofVerified (Pipeline.printed (snd (Pipeline.execute h)))
        -> fst (Pipeline.execute h) = None).
Proof.
  intros sha256 randomBytes h i fs Hc Hnode.
  rewrite MockMoreFacts.node_ok_statusMatch in Hnode.
  destruct (Mock.statusMatch i); revert Hc Hnode;
    PipelineFacts.start_run h; intros Hc Hnode; try discriminate Hc;
    rewrite ?Hnode;
    PipelineFacts.run_cases h
      ltac:(split; [split; [intros H; solve [destruct H | repeat split; reflexivity]
                           | intros H; decompose [and] H; solve [discriminate | left; reflexivity]]
                   | intros H; solve [destruct H | reflexivity]]);
    (split; [split; [intros H; solve [destruct H | repeat split; reflexivity]
                           | intros H; decompose [and] H; solve [discriminate | left; reflexivity]]
                   | intros H; solve [destruct H | reflexivity]]).
Qed.

Lemma mock_banner_iff_status_match_witness :
  (In Pipeline.MockProofVerified
     (Pipeline.printed
        (snd (Pipeline.execute (Hosts.without_circom Samples.delhi_json))))
   <-> (false || true) = true /\ (false || true) = true /\ true = true
       /\ Mock.statusMatch Samples.delhi_json = true)
  /\ (In Pipeline.MockProofVerified
        (Pipeline.printed
           (snd (Pipeline.execute (Hosts.without_circom Samples.delhi_json))))
      -> fst (Pipeline.execute (Hosts.without_circom Samples.delhi_json)) = None).
Proof.
  apply (mock_banner_iff_status_match Samples.id_hash Samples.zeros
           (Hosts.without_circom Samples.delhi_json) Samples.delhi_json ∅);
    reflexivity.
Defined.

(** X12. The real path end to end.  Where [generate_witness.js] exits as
    the witness calculator modelled above does, the banner "ZK-SNARK proof
    verified successfully" is printed only for an input.json on which the
    circuit is satisfiable: the status hashes agree in the field and the
    shifted coordinates pass the two comparators. *)
Theorem proof_banner_implies_satisfiable :
  forall (Poseidon : list Z -> Z) (h : Pipeline.Host) (raw : Circuit.Inputs),
    (Pipeline.exit_ok h Pipeline.GenerateWitness = true ->
     exists w, Circuit.generate_witness Poseidon raw = Ok w) ->
    In Pipeline.ProofVerified (Pipeline.printed (snd (Pipeline.execute h))) ->
    Circuit.satisfiable Poseidon (Circuit.read_inputs raw)
    /\ Circuit.accepted (Circuit.read_inputs raw) = true.
Proof.
  intros Poseidon h raw Hgen Hin.
  assert (Pipeline.exit_ok h Pipeline.GenerateWitness = true) as Hok.
  { revert Hin. clear Hgen. PipelineFacts.start_run h;
      PipelineFacts.run_cases h
        ltac:(intros H; solve [destruct H | destruct H as [H | []]; discriminate H
                              | assumption | reflexivity]);
      intros H; solve [destruct H | destruct H as [H | []]; discriminate H
                      | assumption | reflexivity]. }
  specialize (Hgen Hok).
  rewrite CircuitFacts.generate_witness_ok_iff in Hgen.
  split; [| exact Hgen].
  apply CircuitFacts.satisfiable_iff, Hgen.
Qed.

Lemma proof_banner_implies_satisfiable_witness :
  Circuit.satisfiable Samples.sum_hash (Circuit.read_inputs Samples.delhi)
  /\ Circuit.accepted (Circuit.read_inputs Samples.delhi) = true.
Proof.
  apply (proof_banner_implies_satisfiable Samples.sum_hash
           (Hosts.with_input Samples.delhi) Samples.delhi).
  - intros _. apply CircuitFacts.generate_witness_ok_iff.
    vm_compute. reflexivity.
  - vm_compute. left. reflexivity.
Defined.

(** ** The page *)
Module AppFacts.
Import App.

Lemma handleSubmit_result now use_mock backend st :
  Frontend.result (Frontend.handleSubmit now use_mock backend st)
  = Some (match use_mock, backend with
          | false, Frontend.JsonResolves json => json
          | _, _ => Frontend.MOCK_COMPLIANCE_RESULT now
          end).
Proof. destruct use_mock, backend; reflexivity. Qed.

Lemma mocked_initial now : mocked now initial_page.
Proof. split; intros ? H; discriminate H. Qed.

Lemma mocked_step now p e : mocked now p -> mocked now (step now true p e).
Proof.
  intros H. destruct e as [b files | backend |]; cbn [step].
  - destruct files as [| file files]; cbn [handleCapture]; [exact H |].
    destruct H as [_ Hres]. split; cbn [captureData preview].
    + intros d [= <-]. reflexivity.
    + destruct (captureData p); [exact Hres | intros ? H; discriminate H].
  - destruct (captureData p) eqn:Hd; [| exact H].
    destruct (action (render (preview p))) as [[|] |]; [exact H | | exact H].
    destruct H as [Hgps _]. split; cbn [captureData preview].
    + rewrite <- Hd. exact Hgps.
    + intros r. rewrite handleSubmit_result. now intros [= <-].
  - destruct (captureData p); [| exact H].
    destruct (action (render (preview p))); [exact H |].
    apply mocked_initial.
Qed.

Lemma mocked_run now events : forall p,
  mocked now p -> mocked now (fold_left (step now true) events p).
Proof.
  induction events as [| e events IH]; intros p H; [exact H |].
  cbn [fold_left]. apply IH, mocked_step, H.
Qed.

End AppFacts.

(** ** The preview over any answer *)
Module PreviewFacts.
Import Preview.







End PreviewFacts.



(** X14. With the mock switch as it is set in mock-data.ts, the page uses
    neither the device's position nor the backend's answer: after any
    sequence of captures and clicks, whatever the browser and the backend
    do, the position captured is the one of New Delhi, the verdict is the
    canned one, and VIOLATION DETECTED is never shown. *)
Theorem mocked_page_ignores_device_and_backend :
  forall (now : string) (events : list App.Event),
    let p := App.run now Frontend.USE_MOCK events in
    (forall d, App.captureData p = Some d -> App.gps d = App.MOCK_GPS)
    /\ (forall r, Frontend.result (App.preview p) = Some r ->
                  r = Frontend.MOCK_COMPLIANCE_RESULT now)
    /\ App.badge (App.render (App.preview p))
       <> Some App.ViolationDetectedBadge.
Proof.
  intros now events p.
  destruct (AppFacts.mocked_run now events App.initial_page
              (AppFacts.mocked_initial now)) as [Hgps Hres].
  fold (App.run now true events) in Hgps, Hres.
  change (App.run now true events) with p in Hgps, Hres.
  split; [exact Hgps |]. split; [exact Hres |].
  unfold App.render. cbn [App.badge].
  destruct (Frontend.result (App.preview p)) as [r |] eqn:Hr; [| discriminate].
  rewrite (Hres r eq_refl). discriminate.
Qed.



(** ** The counter *)
Module CounterFacts.
Import Counter.

Section Numbers.

Variable number : Type.
Variables zero thirty : number.
Variable is_zero : number -> bool.
Variables add div min : number -> number -> number.
Variable round1 : number -> number.

Local Notation "'tick'" := (Counter.tick number thirty add div min round1).
Local Notation "'after'" :=
  (Counter.after number zero thirty is_zero add div min round1).

Lemma after_S n greenBalance shown :
  after (S n) greenBalance shown
  = tick greenBalance (after n greenBalance shown).
Proof. reflexivity. Qed.

Lemma tick_running greenBalance t :
  running number t = true ->
  running number (tick greenBalance t) = negb (30 <=? S (step number t))%nat
  /\ step number (tick greenBalance t) = S (step number t)
  /\ ((30 <=? S (step number t))%nat = true ->
      displayedGreen number (tick greenBalance t) = greenBalance).
Proof.
  intros Hrun. unfold Counter.tick. rewrite Hrun. cbv zeta.
  destruct (30 <=? S (step number t))%nat; repeat split; intros H;
    discriminate H.
Qed.

Lemma tick_cleared greenBalance t :
  running number t = false -> tick greenBalance t = t.
Proof. intros Hrun. unfold Counter.tick. now rewrite Hrun. Qed.

Lemma counting greenBalance shown n :
  is_zero greenBalance = false ->
  (n < 30)%nat ->
  running number (after n greenBalance shown) = true
  /\ step number (after n greenBalance shown) = n.
Proof.
  intros Hz. induction n as [| n IH]; intros Hn.
  - unfold Counter.after, start. cbn [Nat.iter]. rewrite Hz. split; reflexivity.
  - destruct IH as [Hrun Hstep]; [lia |]. rewrite after_S.
    destruct (tick_running greenBalance _ Hrun) as [-> [-> _]].
    rewrite Hstep. split; [| reflexivity].
    destruct (Nat.leb_spec 30 (S n)); [lia | reflexivity].
Qed.

Lemma landed greenBalance shown k :
  is_zero greenBalance = false ->
  running number (after (30 + k) greenBalance shown) = false
  /\ step number (after (30 + k) greenBalance shown) = 30%nat
  /\ displayedGreen number (after (30 + k) greenBalance shown) = greenBalance.
Proof.
  intros Hz. induction k as [| k IH].
  - destruct (counting greenBalance shown 29 Hz) as [Hrun Hstep]; [lia |].
    change (30 + 0)%nat with (S 29). rewrite after_S.
    destruct (tick_running greenBalance _ Hrun) as [-> [-> Hshown]].
    rewrite Hstep in *. split; [reflexivity |]. split; [reflexivity |]. apply Hshown. reflexivity.
  - replace (30 + S k)%nat with (S (30 + k)) by lia.
    rewrite after_S, tick_cleared; [exact IH | apply IH].
Qed.

End Numbers.

End CounterFacts.

(** X16. The counter lands on the balance.  For a balance that is not 0,
    whatever the floating-point operations return, the interval fires 30
    times: before the 30th firing it is still set and has counted the
    firings; from the 30th on it is cleared and the display holds the
    balance itself, not a rounded sum. *)
Theorem counter_lands_on_balance :
  forall (number : Type) (zero thirty : number) (is_zero : number -> bool)
         (add div min : number -> number -> number)
         (round1 : number -> number) (greenBalance shown : number) (n : nat),
    is_zero greenBalance = false ->
    let t := Counter.after number zero thirty is_zero add div min round1
               n greenBalance shown in
    if (n <? 30)%nat
    then Counter.running number t = true /\ Counter.step number t = n
    else Counter.running number t = false
         /\ Counter.step number t = 30%nat
         /\ Counter.displayedGreen number t = greenBalance.
Proof.
  intros number zero thirty is_zero add div min round1 greenBalance shown n Hz t.
  subst t. destruct (Nat.ltb_spec n 30) as [Hn | Hn].
  - now apply CounterFacts.counting.
  - replace n with (30 + (n - 30))%nat by lia.
    now apply CounterFacts.landed.
Qed.

Lemma counter_lands_on_balance_witness :
  Counter.running Q
    (Counter.after Q 0%Q 30%Q (Qeq_bool 0%Q) Qplus Qdiv
       (fun a b => if Qle_bool a b then a else b) (fun x => x)
       30 42.0%Q 0%Q) = false
  /\ Counter.step Q
       (Counter.after Q 0%Q 30%Q (Qeq_bool 0%Q) Qplus Qdiv
          (fun a b => if Qle_bool a b then a else b) (fun x => x)
          30 42.0%Q 0%Q) = 30%nat
  /\ Counter.displayedGreen Q
       (Counter.after Q 0%Q 30%Q (Qeq_bool 0%Q) Qplus Qdiv
          (fun a b => if Qle_bool a b then a else b) (fun x => x)
          30 42.0%Q 0%Q) = 42.0%Q.
Proof.
  apply (counter_lands_on_balance Q 0%Q 30%Q (Qeq_bool 0%Q) Qplus Qdiv
           (fun a b => if Qle_bool a b then a else b) (fun x => x)
           42.0%Q 0%Q 30).
  reflexivity.
Defined.
